(** * Healthcare dashboard: the data-preparation contract of [streamlit_app.py]

    The script loads a CSV with pandas, parses two date columns, derives
    [Length of Stay], filters on two sidebar selections and computes a few
    aggregates.  A [DataFrame] is embedded as the list of its rows; a cell
    that pandas holds as [NaN] / [NaT] is [None].

    Library behaviour that the script relies on (pandas' [to_datetime],
    [Series.mean], [Series.unique], [value_counts], [sort_index],
    [groupby().size()], [groupby().mean()], [DataFrame.corr]) is modelled
    from its documented semantics.  Timestamps are int64 counts of
    nanoseconds, and subtracting two date columns raises where pandas raises.
    Float columns are exact rationals: the rounding of [float64] is not part
    of the model, so the statements about means and correlations are kept to
    what does not depend on it. *)

From Stdlib Require Import Ascii String ZArith QArith Reals Lia Psatz OrderedTypeEx.
From stdpp Require Import gmap strings list fin_maps sorting.

(** ** Data model *)

(** A row of [pd.read_csv('healthcare_dataset.csv')]: the date columns are
    still text. *)
Record RawRecord := mkRaw {
  raw_Gender : option string;
  raw_Medical_Condition : option string;
  raw_Hospital : option string;
  raw_Age : option Z;
  raw_Billing_Amount : option Q;
  raw_Date_of_Admission : option string;
  raw_Discharge_Date : option string
}.

(** A row of the frame returned by [load_data]. *)
Record Row := mkRow {
  Gender : option string;
  Medical_Condition : option string;
  Hospital : option string;
  Age : option Z;
  Billing_Amount : option Q;
  Date_of_Admission : option Z;
  Discharge_Date : option Z;
  Length_of_Stay : option Z
}.

Abbreviation DataFrame := (list Row).

(** ** [load_data] (lines 9-17) *)

Definition ns_per_day : Z := 86400000000000.

Definition int64_min : Z := - 2 ^ 63.
Definition int64_max : Z := 2 ^ 63 - 1.

(** A statement of the script returns a value or raises. *)
Inductive Exception := TypeError | OverflowError.

Inductive Outcome (A : Type) :=
| Returns (x : A)
| Raises (e : Exception).

Arguments Returns {A} x.
Arguments Raises {A} e.

(** A [datetime64[ns]] column: tz-aware or tz-naive, each cell the int64
    count of nanoseconds since the epoch (taken in UTC when the column is
    tz-aware), [None] for [NaT]. *)
Record DatetimeColumn := mkDatetimeColumn {
  tz_aware : bool;
  i8 : list (option Z)
}.

(** One cell of [Series - Series] on [datetime64[ns]]: [NaT] propagates,
    the int64 subtraction is checked and raises when it overflows, and the
    difference [int64_min] is the bit pattern of [NaT]. *)
Definition sub_datetime (x y : option Z) : Outcome (option Z) :=
  match x, y with
  | Some a, Some b =>
      let t := (a - b)%Z in
      if (t <? int64_min)%Z || (int64_max <? t)%Z then Raises OverflowError
      else if (t =? int64_min)%Z then Returns None
      else Returns (Some t)
  | _, _ => Returns None
  end.

(** The cells in row order; the first overflow raises. *)
Fixpoint sub_cells (xs ys : list (option Z)) : Outcome (list (option Z)) :=
  match xs, ys with
  | x :: xs', y :: ys' =>
      match sub_datetime x y with
      | Raises e => Raises e
      | Returns t =>
          match sub_cells xs' ys' with
          | Raises e => Raises e
          | Returns ts => Returns (t :: ts)
          end
      end
  | _, _ => Returns []
  end.

(** [x - y] for two date columns: a tz-aware and a tz-naive column cannot
    be subtracted. *)
Definition sub_columns (x y : DatetimeColumn) : Outcome (list (option Z)) :=
  if Bool.eqb (tz_aware x) (tz_aware y)
  then sub_cells (i8 x) (i8 y)
  else Raises TypeError.

(** [.dt.days]: the days component of a timedelta is its floor division
    by one day; [NaT] gives [NaN]. *)
Definition dt_days (td : option Z) : option Z :=
  match td with
  | Some t => Some (t / ns_per_day)%Z
  | None => None
  end.

(** Putting the three new columns next to the untouched ones. *)
Fixpoint set_columns (rows : list RawRecord) (adm dis los : list (option Z))
  : DataFrame :=
  match rows, adm, dis, los with
  | r :: rows', a :: adm', d :: dis', l :: los' =>
      mkRow (raw_Gender r) (raw_Medical_Condition r) (raw_Hospital r)
               (raw_Age r) (raw_Billing_Amount r) a d l
      :: set_columns rows' adm' dis' los'
  | _, _, _, _ => []
  end.

Section Load.
(** [pd.to_datetime(column, errors='coerce')], for the calls that return a
    [datetime64[ns]] column: one cell per cell of the input, [NaT] where the
    cell does not parse or lies outside the timestamps that int64
    nanoseconds hold. *)
Variable to_datetime : list (option string) → DatetimeColumn.

(** Line 13. *)
Definition admission_column (csv : list RawRecord) : DatetimeColumn :=
  to_datetime (map raw_Date_of_Admission csv).

(** Line 14. *)
Definition discharge_column (csv : list RawRecord) : DatetimeColumn :=
  to_datetime (map raw_Discharge_Date csv).

Definition load_data (csv : list RawRecord) : Outcome DataFrame :=
  let adm := admission_column csv in
  let dis := discharge_column csv in
  match sub_columns dis adm with
  | Raises e => Raises e
  | Returns td => Returns (set_columns csv (i8 adm) (i8 dis) (map dt_days td))
  end.
End Load.

(** The difference of two timestamps fits int64. *)
Definition fits_int64 (a d : Z) : Prop :=
  (int64_min <= d - a <= int64_max)%Z.

(** *** An instance of [to_datetime] for columns written as [%Y-%m-%d]

    Used for the worked examples: a cell parses when it is a valid calendar
    date in that format that [datetime64[ns]] can hold, and becomes midnight
    of that day in a tz-naive column. *)
Module IsoDate.
Local Open Scope Z_scope.

Definition digit (c : ascii) : option Z :=
  let n := Z.of_nat (nat_of_ascii c) in
  if (48 <=? n) && (n <=? 57) then Some (n - 48) else None.

Fixpoint digits (acc : Z) (cs : list ascii) : option Z :=
  match cs with
  | [] => Some acc
  | c :: cs' =>
      match digit c with
      | Some v => digits (10 * acc + v) cs'
      | None => None
      end
  end.

Definition is_leap (y : Z) : bool :=
  ((y mod 4 =? 0) && negb (y mod 100 =? 0)) || (y mod 400 =? 0).

Definition days_in_month (y m : Z) : Z :=
  if m =? 2 then (if is_leap y then 29 else 28)
  else if (m =? 4) || (m =? 6) || (m =? 9) || (m =? 11) then 30
  else 31.

(** Days since 1970-01-01 in the proleptic Gregorian calendar. *)
Definition days_from_civil (y m d : Z) : Z :=
  let y' := if m <=? 2 then y - 1 else y in
  let era := y' / 400 in
  let yoe := y' - era * 400 in
  let mp := if m <=? 2 then m + 9 else m - 3 in
  let doy := (153 * mp + 2) / 5 + d - 1 in
  let doe := yoe * 365 + yoe / 4 - yoe / 100 + doy in
  era * 146097 + doe - 719468.

Definition dash : ascii := "-"%char.

(** A timestamp outside the range of [datetime64[ns]] is coerced to
    [NaT]. *)
Definition in_bounds (t : Z) : option Z :=
  if (- int64_max <=? t) && (t <=? int64_max) then Some t else None.

Definition parse_date (s : string) : option Z :=
  match list_ascii_of_string s with
  | [y1; y2; y3; y4; s1; m1; m2; s2; d1; d2] =>
      if negb (Ascii.eqb s1 dash && Ascii.eqb s2 dash) then None else
      match digits 0 [y1; y2; y3; y4], digits 0 [m1; m2], digits 0 [d1; d2] with
      | Some y, Some m, Some d =>
          if (1 <=? m) && (m <=? 12) && (1 <=? d) && (d <=? days_in_month y m)
          then in_bounds (days_from_civil y m d * ns_per_day)
          else None
      | _, _, _ => None
      end
  | _ => None
  end.

Definition to_datetime (col : list (option string)) : DatetimeColumn :=
  mkDatetimeColumn false
    (map (λ cell, match cell with Some s => parse_date s | None => None end) col).
End IsoDate.

(** ** The sidebar filters (lines 28-38) *)

(** A selection is an element of [['All'] + list(df[col].unique())]: a
    string, or [NaN] when the column has an empty cell. *)
Definition ne_All (selected : option string) : bool :=
  match selected with
  | Some s => negb (String.eqb s "All")
  | None => true
  end.

(** [series == value], elementwise; [NaN] is equal to nothing. *)
Definition eq_cell (x v : option string) : bool :=
  match x, v with
  | Some a, Some b => String.eqb a b
  | _, _ => false
  end.

Definition series_eq (s : list (option string)) (v : option string) : list bool :=
  map (λ x, eq_cell x v) s.

(** [df[col]] *)
Definition column {A} (col : Row → A) (d : DataFrame) : list A := map col d.

(** [df[mask]]: the rows whose mask entry is [True], in order. *)
Fixpoint getitem_mask (d : DataFrame) (mask : list bool) : DataFrame :=
  match d, mask with
  | r :: d', b :: mask' =>
      if b then r :: getitem_mask d' mask' else getitem_mask d' mask'
  | _, _ => []
  end.

Definition filter_Gender (f : DataFrame) (selected_gender : option string) : DataFrame :=
  if ne_All selected_gender
  then getitem_mask f (series_eq (column Gender f) selected_gender)
  else f.

Definition filter_Medical_Condition (f : DataFrame) (selected_condition : option string)
  : DataFrame :=
  if ne_All selected_condition
  then getitem_mask f (series_eq (column Medical_Condition f) selected_condition)
  else f.

(** The value of [filtered_df] after line 38. *)
Definition filtered_df (df : DataFrame) (selected_gender selected_condition : option string)
  : DataFrame :=
  let f := df in
  let f := filter_Gender f selected_gender in
  let f := filter_Medical_Condition f selected_condition in
  f.

(** What the two selections ask of a row. *)
Definition selected (selected_gender selected_condition : option string) (r : Row) : bool :=
  (negb (ne_All selected_gender) || eq_cell (Gender r) selected_gender)
  && (negb (ne_All selected_condition) || eq_cell (Medical_Condition r) selected_condition).

(** A selection accepts a cell: it is ['All'], or the cell holds that string. *)
Definition matches (selection cell : option string) : Prop :=
  selection = Some "All" ∨ ∃ s, selection = Some s ∧ cell = Some s.

(** *** The same lines as a program over the session's objects

    [df] and [filtered_df] are variables holding references to frames;
    [df.copy()] and [frame[mask]] each build a new frame object. *)
Module Session.
Abbreviation loc := positive.

Record state := mkState {
  objects : gmap loc DataFrame;
  var_df : loc;
  var_filtered_df : option loc
}.

Definition M (A : Type) : Type := state → option (A * state).

#[export] Instance M_ret : MRet M := λ A x σ, Some (x, σ).
#[export] Instance M_bind : MBind M := λ A B k m σ,
  match m σ with
  | Some (x, σ') => k x σ'
  | None => None
  end.

Definition read_df : M loc := λ σ, Some (var_df σ, σ).

Definition read_filtered_df : M loc := λ σ,
  match var_filtered_df σ with
  | Some l => Some (l, σ)
  | None => None
  end.

Definition assign_filtered_df (l : loc) : M unit := λ σ,
  Some (tt, mkState (objects σ) (var_df σ) (Some l)).

Definition deref (l : loc) : M DataFrame := λ σ,
  match objects σ !! l with
  | Some d => Some (d, σ)
  | None => None
  end.

Definition new (d : DataFrame) : M loc := λ σ,
  let l := fresh (dom (objects σ)) in
  Some (l, mkState (<[l := d]> (objects σ)) (var_df σ) (var_filtered_df σ)).

Definition DataFrame_copy (l : loc) : M loc :=
  d ← deref l; new d.

Definition DataFrame_getitem_column {A} (col : Row → A) (l : loc) : M (list A) :=
  d ← deref l; mret (column col d).

Definition DataFrame_getitem_mask (l : loc) (mask : list bool) : M loc :=
  d ← deref l; new (getitem_mask d mask).

Definition line_34 : M unit :=
  df ← read_df; c ← DataFrame_copy df; assign_filtered_df c.

Definition lines_35_36 (selected_gender : option string) : M unit :=
  if ne_All selected_gender then
    f ← read_filtered_df;
    s ← DataFrame_getitem_column Gender f;
    f' ← DataFrame_getitem_mask f (series_eq s selected_gender);
    assign_filtered_df f'
  else mret tt.

Definition lines_37_38 (selected_condition : option string) : M unit :=
  if ne_All selected_condition then
    f ← read_filtered_df;
    s ← DataFrame_getitem_column Medical_Condition f;
    f' ← DataFrame_getitem_mask f (series_eq s selected_condition);
    assign_filtered_df f'
  else mret tt.

Definition lines_34_38 (selected_gender selected_condition : option string) : M unit :=
  line_34;; lines_35_36 selected_gender;; lines_37_38 selected_condition.

(** The relation of a state [σ] reached from line 34 on to the state [σ0]
    before it: [df] still refers to the same object, the objects of [σ0] are
    as they were, and [filtered_df] refers to an object made since, which
    holds [f]. *)
Definition derived (σ0 : state) (f : DataFrame) (σ : state) : Prop :=
  var_df σ = var_df σ0 ∧
  objects σ0 ⊆ objects σ ∧
  ∃ l, var_filtered_df σ = Some l ∧ objects σ0 !! l = None ∧
       objects σ !! l = Some f.
End Session.

(** ** Data overview (lines 44-46) *)

Definition dropna {A} (s : list (option A)) : list A := omap Datatypes.id s.

Definition Qsum (l : list Q) : Q := foldr Qplus 0%Q l.

(** [Series.mean()]: [NaN] cells are skipped; with no value left the result
    is [NaN], here [None]. *)
Definition mean (s : list (option Q)) : option Q :=
  let values := dropna s in
  let count := length values in
  if (0 <? count)%nat
  then Some (Qred (Qsum values / inject_Z (Z.of_nat count)))
  else None.

Definition astype_float (x : option Z) : option Q :=
  match x with
  | Some z => Some (inject_Z z)
  | None => None
  end.

Record Overview := mkOverview {
  count : nat;
  mean_length_of_stay : option Q;
  mean_billing_amount : option Q
}.

(** [len(filtered_df)], [filtered_df['Length of Stay'].mean()] and
    [filtered_df['Billing Amount'].mean()]. *)
Definition summarize (d : DataFrame) : Overview :=
  mkOverview (length d)
             (mean (map astype_float (column Length_of_Stay d)))
             (mean (column Billing_Amount d)).

(** The lengths of stay that a frame has, in row order. *)
Definition stays (d : DataFrame) : list Z := dropna (column Length_of_Stay d).

Definition Zsum (l : list Z) : Z := foldr Z.add 0%Z l.

(** Integers that [float64] adds without rounding, in whatever order: the
    sum of their magnitudes is below [2^53]. *)
Definition float64_exact (l : list Z) : Prop :=
  (Zsum (map Z.abs l) < 2 ^ 53)%Z.

(** ** Cross-tabulation (line 70) *)

Section GroupBy.
Context `{Countable A, Countable B}.
Variable keyA : Row → option A.
Variable keyB : Row → option B.

(** [groupby([keyA, keyB]).size()]: one entry per observed pair of keys;
    rows with a [NaN] key are dropped. *)
Definition group_count (d : DataFrame) : gmap (A * B) nat :=
  foldr (λ r m,
           match keyA r, keyB r with
           | Some a, Some b => <[(a, b) := S (default 0%nat (m !! (a, b)))]> m
           | _, _ => m
           end) ∅ d.

(** [.unstack().fillna(0)]: a table over the observed values of each key,
    with [0] where a pair was not observed. *)
Definition unstack_fillna (m : gmap (A * B) nat) (a : A) (b : B) : option nat :=
  if decide (a ∈ (set_map fst (dom m) : gset A) ∧ b ∈ (set_map snd (dom m) : gset B))
  then Some (default 0%nat (m !! (a, b)))
  else None.

(** The number of rows with the given pair of keys. *)
Definition count_rows (a : A) (b : B) (d : DataFrame) : nat :=
  length (List.filter (λ r, bool_decide (keyA r = Some a ∧ keyB r = Some b)) d).
End GroupBy.

Definition gender_condition (d : DataFrame) : string → string → option nat :=
  unstack_fillna (group_count Medical_Condition Gender d).

(** ** Correlation heatmap (line 145) *)

(** The observations of a pair of columns: the rows where both have a value. *)
Definition complete_pairs (xs ys : list (option Q)) : list (Q * Q) :=
  omap (λ p, match p with
             | (Some x, Some y) => Some (x, y)
             | _ => None
             end) (zip xs ys).

Definition Qmean (l : list Q) : Q := Qsum l / inject_Z (Z.of_nat (length l)).

(** One entry of [DataFrame.corr()] (Pearson, [min_periods=1]): [NaN] with
    no observation or with a zero divisor, else the covariance over the
    root of the product of the two sums of squared deviations.  The
    coefficient is a real number; whether it is [NaN] is computed on the
    rationals. *)
Definition pearson (xs ys : list (option Q)) : option R :=
  let obs := complete_pairs xs ys in
  if (length obs <? 1)%nat then None else
  let mx := Qmean (obs.*1) in
  let my := Qmean (obs.*2) in
  let ssx := Qsum (map (λ p, (p.1 - mx) * (p.1 - mx))%Q obs) in
  let ssy := Qsum (map (λ p, (p.2 - my) * (p.2 - my))%Q obs) in
  let cov := Qsum (map (λ p, (p.1 - mx) * (p.2 - my))%Q obs) in
  if Qeq_bool (ssx * ssy) 0 then None
  else Some (Q2R cov / sqrt (Q2R (ssx * ssy)))%R.

(** [frame[keys].corr()] *)
Definition corr (d : DataFrame) (keys : list (Row → option Q)) : list (list (option R)) :=
  map (λ ki, map (λ kj, pearson (column ki d) (column kj d)) keys) keys.

Definition entry (M : list (list (option R))) (i j : nat) : option (option R) :=
  match M !! i with
  | Some row => row !! j
  | None => None
  end.

(** [['Age', 'Billing Amount', 'Length of Stay']] *)
Definition heatmap_keys : list (Row → option Q) :=
  [ (λ r, astype_float (Age r)); Billing_Amount; (λ r, astype_float (Length_of_Stay r)) ].

(** A column has two values that differ. *)
Definition varies (col : list (option Q)) : Prop :=
  ∃ x y, Some x ∈ col ∧ Some y ∈ col ∧ ¬ (x == y)%Q.

(** A column of integers of magnitude at most [2^31], as ages and lengths
    of stay are. *)
Definition small_integers (col : list (option Q)) : Prop :=
  ∀ x, Some x ∈ col → ∃ z : Z, x = inject_Z z ∧ (Z.abs z <= 2 ^ 31)%Z.

(** The rows that have a value in both of two columns. *)
Definition complete_rows (ki kj : Row → option Q) (d : DataFrame) : DataFrame :=
  List.filter (λ r, bool_decide (is_Some (ki r) ∧ is_Some (kj r))) d.

(** ** The sidebar options (lines 28-30) *)

(** [Series.unique()]: each value once, in the order of first appearance;
    [NaN] is one value among the others. *)
Fixpoint unique_from `{EqDecision A} (seen s : list A) : list A :=
  match s with
  | [] => []
  | x :: s' =>
      if decide (x ∈ seen) then unique_from seen s'
      else x :: unique_from (x :: seen) s'
  end.

Definition unique `{EqDecision A} (s : list A) : list A := unique_from [] s.

(** [['All'] + list(df['Gender'].unique())] *)
Definition gender_options (df : DataFrame) : list (option string) :=
  Some "All" :: unique (column Gender df).

(** [['All'] + list(df['Medical Condition'].unique())] *)
Definition condition_options (df : DataFrame) : list (option string) :=
  Some "All" :: unique (column Medical_Condition df).

(** ** Results in index order (lines 81, 108, 133) *)

(** The entries of a keyed result in ascending order of the key, as
    [.sort_index()] and a sorting [groupby] give them. *)
Definition sort_index `{Countable K} {V} (le : relation K)
    `{∀ x y, Decision (le x y)} (m : gmap K V) : list (K * V) :=
  merge_sort (λ p q, le p.1 q.1) (map_to_list m).

(** The order of Python strings. *)
Definition String_le (s t : string) : Prop := String.leb s t = true.

#[export] Instance String_le_dec s t : Decision (String_le s t) :=
  decide (String.leb s t = true).

(** ** Age distribution (lines 81-83) *)

(** [Series.value_counts()]: how often each value occurs; [NaN] is not
    counted.  The order it gives (by count) is replaced by [sort_index]. *)
Definition value_counts `{Countable K} (s : list (option K)) : gmap K nat :=
  foldr (λ x m,
           match x with
           | Some k => <[k := S (default 0%nat (m !! k))]> m
           | None => m
           end) ∅ s.

(** The number of cells of a column that hold [k]. *)
Definition count_value `{EqDecision K} (k : K) (s : list (option K)) : nat :=
  length (List.filter (λ x, bool_decide (x = Some k)) s).

(** [filtered_df['Age'].value_counts().sort_index()], then as the frame
    with columns [Age] and [Count]. *)
Definition age_counts (d : DataFrame) : list (Z * nat) :=
  sort_index Z.le (value_counts (column Age d)).

(** ** Means by group (lines 108 and 133) *)

Section GroupByMean.
Context `{Countable K}.
Variable key : Row → option K.
Variable value : Row → option Q.

(** [groupby(key)[value]]: the cells of each group in row order; rows with
    a [NaN] key belong to no group. *)
Definition groupby_values (d : DataFrame) : gmap K (list (option Q)) :=
  foldr (λ r m,
           match key r with
           | Some k => <[k := value r :: default [] (m !! k)]> m
           | None => m
           end) ∅ d.

(** [groupby(key)[value].mean()] *)
Definition groupby_mean (d : DataFrame) : gmap K (option Q) :=
  mean <$> groupby_values d.

(** The rows of one group. *)
Definition group_rows (k : K) (d : DataFrame) : DataFrame :=
  List.filter (λ r, bool_decide (key r = Some k)) d.
End GroupByMean.

Section GroupByFloatMean.
Context `{Countable K}.
Variable key : Row → option K.
Variable value : Row → option Q.

(** The [float64] mean that [groupby().mean()] computes from the values
    of one group, taken in row order; its rounding is left open. *)
Variable group_mean : list Q → option Q.

(** [groupby(key)[value].mean()] on a column of floats: [NaN] cells are
    skipped, and a group without a value has the mean [NaN]. *)
Definition groupby_float_mean (d : DataFrame) : gmap K (option Q) :=
  (λ cells, match dropna cells with
            | [] => None
            | values => group_mean values
            end) <$> groupby_values key value d.
End GroupByFloatMean.

(** [filtered_df.groupby("Hospital")["Billing Amount"].mean().reset_index()] *)
Definition avg_billing_by_hospital (group_mean : list Q → option Q) (d : DataFrame)
  : list (string * option Q) :=
  sort_index String_le (groupby_float_mean Hospital Billing_Amount group_mean d).

(** [filtered_df.groupby('Date of Admission')['Length of Stay'].mean().reset_index()] *)
Definition line_chart_data (d : DataFrame) : list (Z * option Q) :=
  sort_index Z.le
    (groupby_mean Date_of_Admission (λ r, astype_float (Length_of_Stay r)) d).

(** The sum of the counts of a keyed result. *)
Definition total_count `{Countable K} (m : gmap K nat) : nat :=
  sum_list (map_to_list m).*2.

(** ** Worked examples *)

Module Examples.
(** Two CSV rows; the second has a discharge date that does not parse. *)
Definition csv : list RawRecord :=
  [ mkRaw (Some "Male") (Some "Diabetes") (Some "General Hospital")
          (Some 45%Z) (Some (2001 # 2)) (Some "2020-01-01") (Some "2020-01-05");
    mkRaw (Some "Female") (Some "Asthma") (Some "City Clinic")
          (Some 30%Z) (Some (250 # 1)) (Some "2020-02-01") (Some "unparseable") ].

(** The frame that loading them returns. *)
Definition df : DataFrame :=
  match load_data IsoDate.to_datetime csv with
  | Returns d => d
  | Raises _ => []
  end.

(** Both dates of the first row parse, five hundred years apart. *)
Definition csv_far_apart : list RawRecord :=
  [ mkRaw (Some "Male") (Some "Diabetes") (Some "General Hospital")
          (Some 45%Z) (Some (2001 # 2)) (Some "1700-01-01") (Some "2200-01-01") ].


(** A row discharged the day before it was admitted. *)
Definition csv_reversed : list RawRecord :=
  [ mkRaw (Some "Male") (Some "Diabetes") (Some "General Hospital")
          (Some 45%Z) (Some (2001 # 2)) (Some "2020-01-05") (Some "2020-01-04") ].

Definition male_diabetes (age : Z) : Row :=
  mkRow (Some "Male") (Some "Diabetes") (Some "General Hospital")
        (Some age) None None None None.

Definition three_male_diabetes : DataFrame :=
  [ male_diabetes 41; male_diabetes 52; male_diabetes 63 ].

(** Stays of 4, 6 and 11 days and a row without a discharge date. *)
Definition stay (n : option Z) : Row :=
  mkRow (Some "Male") (Some "Diabetes") (Some "General Hospital")
        (Some 45%Z) None None None n.

Definition three_stays : DataFrame :=
  [ stay (Some 4%Z); stay None; stay (Some 6%Z); stay (Some 11%Z) ].

(** A session right after line 21: [df] refers to the loaded frame. *)
Definition session : Session.state :=
  Session.mkState {[ 1%positive := df ]} 1%positive None.
End Examples.

(** * Properties *)

(** ** Loading *)

Lemma set_columns_lookup rows adm dis los i :
  set_columns rows adm dis los !! i =
  match rows !! i, adm !! i, dis !! i, los !! i with
  | Some r, Some a, Some d, Some l =>
      Some (mkRow (raw_Gender r) (raw_Medical_Condition r) (raw_Hospital r)
                  (raw_Age r) (raw_Billing_Amount r) a d l)
  | _, _, _, _ => None
  end.
Proof.
  revert adm dis los i.
  induction rows as [|x rows IH]; intros adm dis los i; [done|].
  destruct adm as [|a adm]; [by destruct i; simpl; repeat case_match|].
  destruct dis as [|d dis]; [by destruct i; simpl; repeat case_match|].
  destruct los as [|l los]; [by destruct i; simpl; repeat case_match|].
  destruct i as [|i]; [done|]. simpl. apply IH.
Qed.

Lemma set_columns_length rows adm dis los :
  length adm = length rows → length dis = length rows →
  length los = length rows →
  length (set_columns rows adm dis los) = length rows.
Proof.
  revert adm dis los.
  induction rows as [|x rows IH]; intros [|a adm] [|d dis] [|l los];
    simpl; try done.
  intros ? ? ?. f_equal. apply IH; lia.
Qed.

Lemma dt_days_midnight a d :
  (a mod ns_per_day = 0)%Z → (d mod ns_per_day = 0)%Z →
  ((d - a) / ns_per_day = d / ns_per_day - a / ns_per_day)%Z.
Proof.
  intros Ha Hd.
  assert (Hn : (ns_per_day ≠ 0)%Z) by done.
  rewrite (Z.div_mod d ns_per_day Hn) at 1.
  rewrite (Z.div_mod a ns_per_day Hn) at 1.
  rewrite Ha, Hd, !Z.add_0_r, <- Z.mul_sub_distr_l.
  rewrite Z.mul_comm. by apply Z.div_mul.
Qed.

(** What one cell of the subtraction does, case by case. *)
Lemma sub_datetime_NaT x y :
  x = None ∨ y = None → sub_datetime x y = Returns None.
Proof. intros [-> | ->]; [done | by destruct x]. Qed.

Lemma sub_datetime_overflow d a :
  ¬ fits_int64 a d → sub_datetime (Some d) (Some a) = Raises OverflowError.
Proof.
  unfold fits_int64, sub_datetime. intros Hfit. simpl.
  destruct (Z.ltb_spec (d - a) int64_min); [done|].
  destruct (Z.ltb_spec int64_max (d - a)); [done|]. lia.
Qed.

Lemma sub_datetime_fits d a :
  fits_int64 a d →
  sub_datetime (Some d) (Some a) =
  Returns (if (d - a =? int64_min)%Z then None else Some (d - a)%Z).
Proof.
  unfold fits_int64, sub_datetime. intros Hfit. simpl.
  destruct (Z.ltb_spec (d - a) int64_min); [lia|].
  destruct (Z.ltb_spec int64_max (d - a)); [lia|]. simpl.
  by destruct (d - a =? int64_min)%Z.
Qed.

Lemma sub_datetime_Raises x y e :
  sub_datetime x y = Raises e →
  e = OverflowError ∧ ∃ d a, x = Some d ∧ y = Some a ∧ ¬ fits_int64 a d.
Proof.
  destruct x as [d|], y as [a|]; try done.
  destruct (decide (fits_int64 a d)) as [Hfit|Hfit].
  - by rewrite sub_datetime_fits.
  - rewrite sub_datetime_overflow by done. intros [= <-]. eauto 6.
Qed.

Lemma sub_datetime_Returns_Some x y t :
  sub_datetime x y = Returns (Some t) →
  ∃ d a, x = Some d ∧ y = Some a ∧ t = (d - a)%Z.
Proof.
  destruct x as [d|], y as [a|]; try done.
  destruct (decide (fits_int64 a d)) as [Hfit|Hfit].
  - rewrite sub_datetime_fits by done. case_match; [done|]. intros [= <-]. eauto.
  - by rewrite sub_datetime_overflow.
Qed.

Lemma sub_cells_Returns xs ys ts :
  sub_cells xs ys = Returns ts →
  length ts = length xs `min` length ys ∧
  ∀ i x y, xs !! i = Some x → ys !! i = Some y →
           ∃ t, ts !! i = Some t ∧ sub_datetime x y = Returns t.
Proof.
  revert ys ts. induction xs as [|x xs IH]; intros [|y ys] ts; simpl;
    try (intros [= <-]; split; [done | by intros ? ? ? ?]).
  destruct (sub_datetime x y) as [t|e] eqn:Ht; [|done].
  destruct (sub_cells xs ys) as [ts'|e] eqn:Hts; [|done].
  intros [= <-]. destruct (IH ys ts' Hts) as [Hlen Hcells].
  split; [simpl; lia|]. intros [|i] x' y'; simpl.
  - intros [= <-] [= <-]. by exists t.
  - apply Hcells.
Qed.

Lemma sub_cells_Raises xs ys e :
  sub_cells xs ys = Raises e →
  ∃ i x y, xs !! i = Some x ∧ ys !! i = Some y ∧ sub_datetime x y = Raises e.
Proof.
  revert ys. induction xs as [|x xs IH]; intros [|y ys]; simpl; try done.
  destruct (sub_datetime x y) as [t|e'] eqn:Ht.
  - destruct (sub_cells xs ys) as [ts'|e'] eqn:Hts; [done|].
    intros [= <-]. destruct (IH ys Hts) as (i & x' & y' & ? & ? & ?).
    by exists (S i), x', y'.
  - intros [= <-]. by exists 0, x, y.
Qed.

Lemma sub_cells_overflow xs ys i d a :
  xs !! i = Some (Some d) → ys !! i = Some (Some a) → ¬ fits_int64 a d →
  sub_cells xs ys = Raises OverflowError.
Proof.
  intros Hx Hy Hfit.
  destruct (sub_cells xs ys) as [ts|e] eqn:Hs.
  - apply sub_cells_Returns in Hs as [_ Hcells].
    destruct (Hcells i _ _ Hx Hy) as (t & _ & Ht).
    by rewrite sub_datetime_overflow in Ht.
  - apply sub_cells_Raises in Hs as (j & x & y & _ & _ & He).
    by apply sub_datetime_Raises in He as [-> _].
Qed.

Lemma eqb_tz_true (b c : bool) : Bool.eqb b c = true ↔ b = c.
Proof. by destruct b, c. Qed.

Section LoadFacts.
Variable to_datetime : list (option string) → DatetimeColumn.

(** Which of the three ways loading takes. *)
Lemma load_data_TypeError csv :
  tz_aware (admission_column to_datetime csv)
    ≠ tz_aware (discharge_column to_datetime csv) →
  load_data to_datetime csv = Raises TypeError.
Proof.
  intros Htz. unfold load_data, sub_columns.
  destruct (Bool.eqb _ _) eqn:E; [|done].
  apply Bool.eqb_prop in E. by destruct Htz.
Qed.

Lemma load_data_OverflowError csv i a d :
  tz_aware (admission_column to_datetime csv)
    = tz_aware (discharge_column to_datetime csv) →
  i8 (admission_column to_datetime csv) !! i = Some (Some a) →
  i8 (discharge_column to_datetime csv) !! i = Some (Some d) →
  ¬ fits_int64 a d →
  load_data to_datetime csv = Raises OverflowError.
Proof.
  intros Htz Ha Hd Hfit. unfold load_data, sub_columns.
  rewrite (proj2 (eqb_tz_true _ _)) by done.
  by rewrite (sub_cells_overflow _ _ i d a Hd Ha Hfit).
Qed.

Lemma load_data_Returns csv :
  tz_aware (admission_column to_datetime csv)
    = tz_aware (discharge_column to_datetime csv) →
  (∀ i a d,
     i8 (admission_column to_datetime csv) !! i = Some (Some a) →
     i8 (discharge_column to_datetime csv) !! i = Some (Some d) →
     fits_int64 a d) →
  ∃ df, load_data to_datetime csv = Returns df.
Proof.
  intros Htz Hfit. unfold load_data, sub_columns.
  rewrite (proj2 (eqb_tz_true _ _)) by done.
  destruct (sub_cells _ _) as [ts|e] eqn:Hs; [by eexists|].
  apply sub_cells_Raises in Hs as (i & x & y & Hx & Hy & He).
  apply sub_datetime_Raises in He as (_ & d & a & -> & -> & Hno).
  destruct Hno. by eapply Hfit.
Qed.

Lemma load_data_Returns_inv csv df :
  load_data to_datetime csv = Returns df →
  tz_aware (admission_column to_datetime csv)
    = tz_aware (discharge_column to_datetime csv) ∧
  ∃ td,
    sub_cells (i8 (discharge_column to_datetime csv))
              (i8 (admission_column to_datetime csv)) = Returns td ∧
    df = set_columns csv (i8 (admission_column to_datetime csv))
                     (i8 (discharge_column to_datetime csv)) (map dt_days td).
Proof.
  unfold load_data, sub_columns.
  destruct (Bool.eqb _ _) eqn:E; [|done].
  apply Bool.eqb_prop in E.
  destruct (sub_cells _ _) as [td|e] eqn:Hs; [|done].
  intros [= <-]. split; [done|]. by exists td.
Qed.

(** A row of a returned frame: its length of stay is the days of the
    difference of its own two dates. *)
Lemma load_data_row csv df i r :
  load_data to_datetime csv = Returns df → df !! i = Some r →
  ∃ x t, csv !! i = Some x ∧
         i8 (admission_column to_datetime csv) !! i = Some (Date_of_Admission r) ∧
         i8 (discharge_column to_datetime csv) !! i = Some (Discharge_Date r) ∧
         sub_datetime (Discharge_Date r) (Date_of_Admission r) = Returns t ∧
         r = mkRow (raw_Gender x) (raw_Medical_Condition x) (raw_Hospital x)
                   (raw_Age x) (raw_Billing_Amount x)
                   (Date_of_Admission r) (Discharge_Date r) (dt_days t).
Proof.
  intros (_ & td & Hs & ->)%load_data_Returns_inv Hr.
  rewrite set_columns_lookup, list_lookup_fmap in Hr.
  destruct (csv !! i) as [x|] eqn:Hx; [|done].
  destruct (i8 (admission_column to_datetime csv) !! i) as [a|] eqn:Ha; [|done].
  destruct (i8 (discharge_column to_datetime csv) !! i) as [d|] eqn:Hd; [|done].
  apply sub_cells_Returns in Hs as [_ Hcells].
  destruct (Hcells i d a Hd Ha) as (t & Ht & Hsub).
  rewrite Ht in Hr. simpl in Hr. injection Hr as <-. by exists x, t.
Qed.

Lemma load_data_elem_of csv df r :
  load_data to_datetime csv = Returns df → r ∈ df →
  ∃ t, sub_datetime (Discharge_Date r) (Date_of_Admission r) = Returns t ∧
       Length_of_Stay r = dt_days t.
Proof.
  intros Hload (i & Hi)%list_elem_of_lookup_1.
  destruct (load_data_row csv df i r Hload Hi) as (x & t & _ & _ & _ & Hsub & Hr).
  exists t. split; [done|]. by rewrite Hr.
Qed.

Hypothesis to_datetime_length : ∀ col, length (i8 (to_datetime col)) = length col.

Lemma load_data_length csv df :
  load_data to_datetime csv = Returns df → length df = length csv.
Proof using to_datetime_length.
  intros (_ & td & Hs & ->)%load_data_Returns_inv.
  apply sub_cells_Returns in Hs as [Hlen _].
  unfold admission_column, discharge_column in *.
  rewrite !to_datetime_length, !length_map in Hlen.
  apply set_columns_length.
  - by rewrite to_datetime_length, length_map.
  - by rewrite to_datetime_length, length_map.
  - rewrite length_map. lia.
Qed.

(** The row at position [i] of a returned frame: the cells of the CSV row
    next to the two parsed dates and the derived column. *)
Lemma load_data_lookup csv df i x :
  load_data to_datetime csv = Returns df → csv !! i = Some x →
  ∃ a d t,
    i8 (admission_column to_datetime csv) !! i = Some a ∧
    i8 (discharge_column to_datetime csv) !! i = Some d ∧
    sub_datetime d a = Returns t ∧
    df !! i =
      Some (mkRow (raw_Gender x) (raw_Medical_Condition x) (raw_Hospital x)
                  (raw_Age x) (raw_Billing_Amount x) a d (dt_days t)).
Proof using to_datetime_length.
  intros Hload Hx. pose proof (lookup_lt_Some _ _ _ Hx) as Hi.
  destruct (lookup_lt_is_Some_2 df i) as [r Hr];
    [by rewrite (load_data_length csv df Hload)|].
  destruct (load_data_row csv df i r Hload Hr)
    as (x' & t & Hx' & Ha & Hd & Hsub & Heq).
  rewrite Hx in Hx'. injection Hx' as <-.
  exists (Date_of_Admission r), (Discharge_Date r), t.
  split_and!; [done..|]. by rewrite Hr, Heq at 1.
Qed.

(** C1: loading raises [TypeError] when one date column is tz-aware and
    the other is not, and [OverflowError] when two parsed dates of a row are
    further apart than int64 nanoseconds hold; it returns a frame otherwise.
    In a returned frame, a row whose dates parse to [a] and [d], with a
    difference that is not the bit pattern of [NaT], has [Length of Stay]
    equal to the whole number of days in [d - a], whatever its sign; for two
    dates at midnight this is the difference of their day numbers. *)
Theorem load_data_length_of_stay csv :
  (tz_aware (admission_column to_datetime csv)
     ≠ tz_aware (discharge_column to_datetime csv) →
   load_data to_datetime csv = Raises TypeError) ∧
  (tz_aware (admission_column to_datetime csv)
     = tz_aware (discharge_column to_datetime csv) →
   (∃ i a d,
      i8 (admission_column to_datetime csv) !! i = Some (Some a) ∧
      i8 (discharge_column to_datetime csv) !! i = Some (Some d) ∧
      ¬ fits_int64 a d) →
   load_data to_datetime csv = Raises OverflowError) ∧
  (tz_aware (admission_column to_datetime csv)
     = tz_aware (discharge_column to_datetime csv) →
   (∀ i a d,
      i8 (admission_column to_datetime csv) !! i = Some (Some a) →
      i8 (discharge_column to_datetime csv) !! i = Some (Some d) →
      fits_int64 a d) →
   ∃ df, load_data to_datetime csv = Returns df) ∧
  ∀ df i a d,
    load_data to_datetime csv = Returns df →
    i8 (admission_column to_datetime csv) !! i = Some (Some a) →
    i8 (discharge_column to_datetime csv) !! i = Some (Some d) →
    (d - a)%Z ≠ int64_min →
    ∃ r, df !! i = Some r ∧
         Date_of_Admission r = Some a ∧
         Discharge_Date r = Some d ∧
         Length_of_Stay r = Some ((d - a) / ns_per_day)%Z ∧
         ((a mod ns_per_day = 0)%Z → (d mod ns_per_day = 0)%Z →
          Length_of_Stay r = Some (d / ns_per_day - a / ns_per_day)%Z).
Proof using to_datetime_length.
  split_and!.
  - apply load_data_TypeError.
  - intros Htz (i & a & d & Ha & Hd & Hfit). by eapply load_data_OverflowError.
  - apply load_data_Returns.
  - intros df i a d Hload Ha Hd Hnat.
    assert (Hi : i < length csv).
    { apply lookup_lt_Some in Ha. unfold admission_column in Ha.
      by rewrite to_datetime_length, length_map in Ha. }
    destruct (lookup_lt_is_Some_2 csv i Hi) as [x Hx].
    destruct (load_data_lookup csv df i x Hload Hx)
      as (a' & d' & t & Ha' & Hd' & Hsub & Hr).
    rewrite Ha in Ha'. rewrite Hd in Hd'. simplify_eq.
    assert (Ht : t = Some (d - a)%Z).
    { destruct (decide (fits_int64 a d)) as [Hfit|Hfit].
      - rewrite sub_datetime_fits in Hsub by done.
        destruct (Z.eqb_spec (d - a) int64_min); [done | congruence].
      - by rewrite sub_datetime_overflow in Hsub. }
    subst t. eexists. split; [exact Hr|]. simpl. split_and!; try done.
    intros. f_equal. by apply dt_days_midnight.
Qed.

End LoadFacts.

(** ** Filtering *)

Lemma getitem_mask_series_eq (col : Row → option string) v d :
  getitem_mask d (series_eq (column col d) v) =
  List.filter (λ r, eq_cell (col r) v) d.
Proof.
  unfold series_eq, column.
  induction d as [|r d IH]; [done|]. simpl. rewrite IH. by destruct (eq_cell _ _).
Qed.

Lemma List_filter_true {A} (p : A → bool) l :
  (∀ x, p x = true) → List.filter p l = l.
Proof. intros Hp. induction l as [|x l IH]; [done|]. simpl. by rewrite Hp, IH. Qed.

Lemma List_filter_ext {A} (p q : A → bool) l :
  (∀ x, p x = q x) → List.filter p l = List.filter q l.
Proof. intros Hp. induction l as [|x l IH]; [done|]. simpl. by rewrite Hp, IH. Qed.

Lemma List_filter_filter {A} (p q : A → bool) l :
  List.filter p (List.filter q l) = List.filter (λ x, q x && p x) l.
Proof.
  induction l as [|x l IH]; [done|]. simpl.
  destruct (q x); simpl; [|done]. destruct (p x); by rewrite IH.
Qed.

Lemma List_filter_sublist {A} (p : A → bool) l : sublist (List.filter p l) l.
Proof.
  induction l as [|x l IH]; [done|]. simpl.
  destruct (p x); by constructor.
Qed.

Lemma List_filter_elem_of {A} (p : A → bool) l x :
  x ∈ List.filter p l ↔ x ∈ l ∧ p x = true.
Proof. rewrite !list_elem_of_In. apply filter_In. Qed.

Lemma filter_Gender_filter d g :
  filter_Gender d g = List.filter (λ r, negb (ne_All g) || eq_cell (Gender r) g) d.
Proof.
  unfold filter_Gender. destruct (ne_All g); simpl.
  - apply getitem_mask_series_eq.
  - symmetry. by apply List_filter_true.
Qed.

Lemma filter_Medical_Condition_filter d c :
  filter_Medical_Condition d c =
  List.filter (λ r, negb (ne_All c) || eq_cell (Medical_Condition r) c) d.
Proof.
  unfold filter_Medical_Condition. destruct (ne_All c); simpl.
  - apply getitem_mask_series_eq.
  - symmetry. by apply List_filter_true.
Qed.

Lemma filtered_df_filter d g c :
  filtered_df d g c = List.filter (selected g c) d.
Proof.
  unfold filtered_df.
  by rewrite filter_Medical_Condition_filter, filter_Gender_filter, List_filter_filter.
Qed.

Lemma accepts_matches sel cell :
  negb (ne_All sel) || eq_cell cell sel = true ↔ matches sel cell.
Proof.
  unfold matches. destruct sel as [s|]; simpl.
  - destruct (String.eqb_spec s "All") as [->|Hs]; simpl.
    + split; [by left | done].
    + destruct cell as [x|]; simpl.
      * destruct (String.eqb_spec x s) as [->|Hx]; split; try done.
        -- intros _. right. by exists s.
        -- intros [?|(s' & ? & ?)]; simplify_eq.
      * split; [done|]. intros [?|(s' & ? & ?)]; simplify_eq.
  - split; [by destruct cell|]. intros [?|(s' & ? & ?)]; simplify_eq.
Qed.

Lemma selected_matches g c r :
  selected g c r = true ↔ matches g (Gender r) ∧ matches c (Medical_Condition r).
Proof. unfold selected. by rewrite andb_true_iff, !accepts_matches. Qed.

(** C5: the filtered frame is the input with exactly the rows that both
    selections accept, in the input's order; with both selections ['All'] it
    is the input. *)
Theorem filtered_df_subsequence d g c :
  filtered_df d g c = List.filter (selected g c) d ∧
  sublist (filtered_df d g c) d ∧
  (∀ r, r ∈ filtered_df d g c ↔
        r ∈ d ∧ matches g (Gender r) ∧ matches c (Medical_Condition r)) ∧
  filtered_df d (Some "All") (Some "All") = d.
Proof.
  split_and!.
  - apply filtered_df_filter.
  - rewrite filtered_df_filter. apply List_filter_sublist.
  - intros r. by rewrite filtered_df_filter, List_filter_elem_of, selected_matches.
  - done.
Qed.

(** C6: filtering a filtered frame again with the same selections changes
    nothing. *)
Theorem filtered_df_idempotent d g c :
  filtered_df (filtered_df d g c) g c = filtered_df d g c.
Proof.
  rewrite !filtered_df_filter, List_filter_filter.
  apply List_filter_ext. intros r. by destruct (selected g c r).
Qed.

(** C10: the gender step and the condition step can be taken in either
    order, and both orders give [filtered_df]. *)
Theorem filter_steps_commute d g c :
  filter_Medical_Condition (filter_Gender d g) c =
    filter_Gender (filter_Medical_Condition d c) g ∧
  filter_Medical_Condition (filter_Gender d g) c = filtered_df d g c ∧
  filter_Gender (filter_Medical_Condition d c) g = filtered_df d g c.
Proof.
  assert (Hswap : filter_Gender (filter_Medical_Condition d c) g = filtered_df d g c).
  { rewrite filtered_df_filter, filter_Gender_filter, filter_Medical_Condition_filter,
      List_filter_filter.
    apply List_filter_ext. intros r. unfold selected. apply andb_comm. }
  split_and!; [by rewrite Hswap | done | done].
Qed.

(** ** The loaded frame is not touched by filtering *)

Section SessionFacts.
Import Session.

Lemma fresh_object (m : gmap loc DataFrame) : m !! fresh (dom m) = None.
Proof. apply not_elem_of_dom, is_fresh. Qed.

Lemma line_34_derived σ0 d :
  objects σ0 !! var_df σ0 = Some d →
  ∃ σ, line_34 σ0 = Some (tt, σ) ∧ derived σ0 d σ.
Proof.
  intros Hd. unfold line_34, DataFrame_copy, mbind, M_bind, read_df, deref, new.
  simpl. rewrite Hd. eexists. split; [done|].
  pose proof (fresh_object (objects σ0)) as Hfresh.
  split_and!; simpl; [done| by apply insert_subseteq |].
  exists (fresh (dom (objects σ0))). by rewrite lookup_insert_eq.
Qed.

Lemma getitem_step_derived (col : Row → option string) sel σ0 f σ :
  derived σ0 f σ →
  ∃ σ', (f0 ← read_filtered_df;
         s ← DataFrame_getitem_column col f0;
         f' ← DataFrame_getitem_mask f0 (series_eq s sel);
         assign_filtered_df f') σ = Some (tt, σ') ∧
        derived σ0 (getitem_mask f (series_eq (column col f) sel)) σ'.
Proof.
  intros (Hdf & Hsub & l & Hl & Hnew & Hf).
  unfold DataFrame_getitem_column, DataFrame_getitem_mask, mbind, M_bind,
    read_filtered_df, deref, new, assign_filtered_df, mret, M_ret.
  simpl. rewrite Hl. simpl. rewrite Hf. simpl. rewrite Hf. simpl.
  eexists. split; [done|].
  pose proof (fresh_object (objects σ)) as Hfresh.
  split_and!; simpl; [done| |].
  - etrans; [exact Hsub|]. by apply insert_subseteq.
  - exists (fresh (dom (objects σ))). split_and!; [done| |by rewrite lookup_insert_eq].
    destruct (objects σ0 !! fresh (dom (objects σ))) as [x|] eqn:Hx; [|done].
    eapply lookup_weaken in Hx; [|exact Hsub]. congruence.
Qed.

Lemma lines_35_36_derived g σ0 f σ :
  derived σ0 f σ →
  ∃ σ', lines_35_36 g σ = Some (tt, σ') ∧ derived σ0 (filter_Gender f g) σ'.
Proof.
  intros H. unfold lines_35_36, filter_Gender. destruct (ne_All g).
  - by apply getitem_step_derived.
  - by exists σ.
Qed.

Lemma lines_37_38_derived c σ0 f σ :
  derived σ0 f σ →
  ∃ σ', lines_37_38 c σ = Some (tt, σ') ∧
        derived σ0 (filter_Medical_Condition f c) σ'.
Proof.
  intros H. unfold lines_37_38, filter_Medical_Condition. destruct (ne_All c).
  - by apply getitem_step_derived.
  - by exists σ.
Qed.

(** C9: run in a session whose [df] holds [d], lines 34 to 38 end with
    [df] referring to the same object, that object still holding [d], every
    object of the session as it was, and [filtered_df] referring to another
    object, which holds the filtered rows. *)
Theorem filtering_leaves_df_unchanged σ d g c :
  objects σ !! var_df σ = Some d →
  ∃ σ' l,
    lines_34_38 g c σ = Some (tt, σ') ∧
    var_df σ' = var_df σ ∧
    objects σ' !! var_df σ' = Some d ∧
    (∀ k x, objects σ !! k = Some x → objects σ' !! k = Some x) ∧
    var_filtered_df σ' = Some l ∧
    l ≠ var_df σ ∧
    objects σ' !! l = Some (filtered_df d g c).
Proof.
  intros Hd.
  destruct (line_34_derived σ d Hd) as (σ1 & H1 & D1).
  destruct (lines_35_36_derived g σ _ σ1 D1) as (σ2 & H2 & D2).
  destruct (lines_37_38_derived c σ _ σ2 D2) as (σ3 & H3 & D3).
  destruct D3 as (Hdf & Hsub & l & Hl & Hnew & Hf).
  exists σ3, l. split_and!; try done.
  - unfold lines_34_38, mbind, M_bind. rewrite H1. simpl. by rewrite H2.
  - rewrite Hdf. by eapply lookup_weaken.
  - intros k x Hk. by eapply lookup_weaken.
  - intros ->. congruence.
Qed.
End SessionFacts.

(** ** Data overview *)

Lemma dropna_nil_iff {A} (s : list (option A)) :
  dropna s = [] ↔ Forall (λ x, x = None) s.
Proof.
  unfold dropna. induction s as [|[x|] s IH]; simpl.
  - split; [constructor | done].
  - split; [done|]. by inversion 1.
  - rewrite IH. split; [by constructor | by inversion 1].
Qed.

Lemma dropna_Some {A} (l : list A) : dropna (map Some l) = l.
Proof. unfold dropna. induction l as [|x l IH]; [done|]. simpl. f_equal. exact IH. Qed.

Lemma mean_None_iff s : mean s = None ↔ Forall (λ x, x = None) s.
Proof.
  rewrite <- dropna_nil_iff. unfold mean.
  destruct (dropna s) as [|x l]; simpl; [done|]. split; done.
Qed.

Lemma mean_dropna s : mean s = mean (map Some (dropna s)).
Proof. unfold mean. by rewrite dropna_Some. Qed.

(** C4: on the empty frame the overview is a count of 0 and two [NaN]
    means; on any frame the count is the number of rows, and a mean is [NaN]
    exactly when its column has no value at all.  [summarize] is a total
    function, so there is no frame on which it fails. *)
Theorem summarize_no_data :
  summarize [] = mkOverview 0 None None ∧
  ∀ d,
    count (summarize d) = length d ∧
    (mean_length_of_stay (summarize d) = None ↔
       Forall (λ r, Length_of_Stay r = None) d) ∧
    (mean_billing_amount (summarize d) = None ↔
       Forall (λ r, Billing_Amount r = None) d).
Proof.
  split; [done|]. intros d. split_and!; [done| |]; simpl.
  - rewrite mean_None_iff. unfold column. rewrite !Forall_fmap.
    apply Forall_iff. intros r. simpl. by destruct (Length_of_Stay r).
  - rewrite mean_None_iff. unfold column. by rewrite Forall_fmap.
Qed.







(** ** Cross-tabulation *)

Section GroupByFacts.
Context `{Countable A, Countable B}.
Variable keyA : Row → option A.
Variable keyB : Row → option B.

Lemma count_rows_cons a b r d :
  count_rows keyA keyB a b (r :: d) =
  if bool_decide (keyA r = Some a ∧ keyB r = Some b)
  then S (count_rows keyA keyB a b d)
  else count_rows keyA keyB a b d.
Proof. unfold count_rows. simpl. by case_bool_decide. Qed.

Lemma group_count_lookup d a b :
  group_count keyA keyB d !! (a, b) =
  match count_rows keyA keyB a b d with
  | O => None
  | S n => Some (S n)
  end.
Proof.
  induction d as [|r d IH]; [done|].
  rewrite count_rows_cons. unfold group_count in *. simpl.
  destruct (keyA r) as [a'|] eqn:Ha, (keyB r) as [b'|] eqn:Hb;
    try (rewrite bool_decide_eq_false_2 by (intros [? ?]; congruence); exact IH).
  destruct (decide ((a', b') = (a, b))) as [Heq|Hne].
  - simplify_eq. rewrite bool_decide_eq_true_2 by done.
    rewrite lookup_insert_eq, IH. by destruct (count_rows _ _ _ _ _).
  - rewrite bool_decide_eq_false_2 by (intros [? ?]; congruence).
    by rewrite lookup_insert_ne.
Qed.

Lemma group_count_positive d a b n :
  group_count keyA keyB d !! (a, b) = Some n →
  0 < n ∧ n = count_rows keyA keyB a b d.
Proof.
  rewrite group_count_lookup.
  destruct (count_rows _ _ _ _ _); [done|]. intros [= <-]. split; [lia | done].
Qed.

Lemma group_count_absent d a b :
  group_count keyA keyB d !! (a, b) = None ↔ count_rows keyA keyB a b d = 0.
Proof. rewrite group_count_lookup. by destruct (count_rows _ _ _ _ _). Qed.
End GroupByFacts.

Lemma group_count_all_same (d : DataFrame) cond gender :
  d ≠ [] →
  Forall (λ r, Medical_Condition r = Some cond ∧ Gender r = Some gender) d →
  group_count Medical_Condition Gender d = {[ (cond, gender) := length d ]}.
Proof.
  intros Hd Hall. apply map_eq. intros [a b]. rewrite group_count_lookup.
  assert (Hc : count_rows Medical_Condition Gender a b d =
               if decide ((cond, gender) = (a, b)) then length d else 0).
  { clear Hd. induction Hall as [|r d [Hr1 Hr2] _ IH].
    - by case_decide.
    - rewrite count_rows_cons, IH, Hr1, Hr2.
      case_decide; simplify_eq.
      + by rewrite bool_decide_eq_true_2.
      + rewrite bool_decide_eq_false_2; [done|]. intros [? ?]. simplify_eq. }
  rewrite Hc. case_decide as Hk.
  - rewrite Hk, lookup_singleton_eq. by destruct d.
  - by rewrite lookup_singleton_ne.
Qed.

(** C2: an entry of the mapping is the number of rows with that pair of
    keys and is positive, and a pair that no row has is not a key of the
    mapping; three Male/Diabetes rows give the single entry
    [("Diabetes", "Male") ↦ 3], with nothing at [("Diabetes", "Female")]. *)
Theorem group_count_observed `{Countable A, Countable B}
    (keyA : Row → option A) (keyB : Row → option B) (d : DataFrame) :
  (∀ a b n, group_count keyA keyB d !! (a, b) = Some n →
            0 < n ∧ n = count_rows keyA keyB a b d) ∧
  (∀ a b, count_rows keyA keyB a b d = 0 ↔
          group_count keyA keyB d !! (a, b) = None) ∧
  (∀ rows : DataFrame,
     length rows = 3 →
     Forall (λ r, Medical_Condition r = Some "Diabetes" ∧ Gender r = Some "Male") rows →
     group_count Medical_Condition Gender rows = {[ ("Diabetes", "Male") := 3 ]} ∧
     group_count Medical_Condition Gender rows !! ("Diabetes", "Female") = None).
Proof.
  split_and!.
  - apply group_count_positive.
  - intros a b. symmetry. apply group_count_absent.
  - intros rows Hlen Hall.
    assert (Hm : group_count Medical_Condition Gender rows =
                 {[ ("Diabetes", "Male") := 3 ]}).
    { rewrite <- Hlen. apply group_count_all_same; [by destruct rows | done]. }
    split; [done|]. by rewrite Hm.
Qed.

(** ** Correlation *)

Lemma Qmult_comm_eq (x y : Q) : (x * y)%Q = (y * x)%Q.
Proof. unfold Qmult. by rewrite Z.mul_comm, Pos.mul_comm. Qed.

Lemma Qsquare_nonneg (x : Q) : (0 <= x * x)%Q.
Proof. unfold Qle, Qmult. simpl. nia. Qed.

Lemma Qsquare_zero (x y : Q) : ((x - y) * (x - y) == 0)%Q ↔ (x == y)%Q.
Proof.
  split.
  - intros [H|H]%Qmult_integral; rewrite <- (Qplus_0_l y), <- H; ring.
  - intros ->. ring.
Qed.

Lemma Qsum_nonneg l : Forall (λ x, 0 <= x)%Q l → (0 <= Qsum l)%Q.
Proof.
  induction 1 as [|x l Hx _ IH]; simpl; [apply Qle_refl|].
  rewrite <- (Qplus_0_l 0). by apply Qplus_le_compat.
Qed.

Lemma Qsum_zero_iff l :
  Forall (λ x, 0 <= x)%Q l → (Qsum l == 0)%Q ↔ Forall (λ x, x == 0)%Q l.
Proof.
  induction 1 as [|x l Hx Hl IH]; simpl.
  - split; [constructor | reflexivity].
  - pose proof (Qsum_nonneg l Hl) as Hs. split.
    + intros Hz.
      assert (Hx0 : (x == 0)%Q).
      { apply Qle_antisym; [|done]. rewrite <- Hz.
        rewrite <- (Qplus_0_r x) at 1. by apply Qplus_le_compat; [apply Qle_refl|]. }
      constructor; [done|]. apply IH. rewrite <- Hz, Hx0. ring.
    + intros [Hx0 Hl0]%Forall_cons. apply IH in Hl0. rewrite Hx0, Hl0. ring.
Qed.

Lemma Qsum_const l v :
  Forall (λ x, x == v)%Q l → (Qsum l == inject_Z (Z.of_nat (length l)) * v)%Q.
Proof.
  induction 1 as [|x l Hx _ IH].
  - simpl. ring.
  - change (Qsum (x :: l)) with (x + Qsum l)%Q.
    rewrite length_cons, Nat2Z.inj_succ, <- Z.add_1_l, inject_Z_plus, Hx, IH. ring.
Qed.

Lemma Qmean_const l v :
  l ≠ [] → Forall (λ x, x == v)%Q l → (Qmean l == v)%Q.
Proof.
  intros Hl Hall. unfold Qmean. rewrite (Qsum_const l v Hall).
  field. destruct l as [|x l]; [done|].
  intros Hn. rewrite length_cons, Nat2Z.inj_succ, <- Z.add_1_l in Hn.
  unfold Qeq in Hn. simpl in Hn. lia.
Qed.

(** The sum of squared deviations from the mean. *)
Lemma sum_sq_zero_iff (values : list Q) :
  (Qsum ((λ x, (x - Qmean values) * (x - Qmean values)) <$> values) == 0)%Q ↔
  Forall (λ x, x == Qmean values)%Q values.
Proof.
  rewrite Qsum_zero_iff.
  - rewrite Forall_fmap. apply Forall_iff. intros x. apply Qsquare_zero.
  - rewrite Forall_fmap. apply Forall_true. intros x. apply Qsquare_nonneg.
Qed.

(** The test for a zero divisor, made on the rationals in [pearson], is the
    test [sqrt (ssx * ssy) != 0] on the divisor itself. *)
Lemma divisor_zero_iff (q : Q) :
  (0 <= q)%Q → Qeq_bool q 0 = true ↔ sqrt (Q2R q) = 0%R.
Proof.
  intros Hq. rewrite Qeq_bool_iff. split.
  - intros ->. rewrite RMicromega.Q2R_0. apply sqrt_0.
  - intros Hs. apply Qreals.eqR_Qeq. rewrite RMicromega.Q2R_0.
    apply sqrt_eq_0; [|done].
    rewrite <- RMicromega.Q2R_0. by apply Qreals.Qle_Rle.
Qed.

Lemma complete_pairs_swap xs ys :
  complete_pairs ys xs = map (λ p, (p.2, p.1)) (complete_pairs xs ys).
Proof.
  unfold complete_pairs. revert ys.
  induction xs as [|x xs IH]; intros [|y ys]; simpl; try done.
  rewrite IH. by destruct x, y.
Qed.

Lemma complete_pairs_diag xs :
  complete_pairs xs xs = map (λ x, (x, x)) (dropna xs).
Proof.
  unfold complete_pairs, dropna.
  induction xs as [|[x|] xs IH]; simpl; [done| |done]. f_equal. exact IH.
Qed.

Lemma complete_pairs_observed (obs : list (Q * Q)) :
  complete_pairs (map (λ p, Some p.1) obs) (map (λ p, Some p.2) obs) = obs.
Proof.
  unfold complete_pairs.
  induction obs as [|[x y] obs IH]; [done|]. simpl. f_equal. exact IH.
Qed.

Lemma pearson_sym xs ys : pearson xs ys = pearson ys xs.
Proof.
  unfold pearson. rewrite (complete_pairs_swap xs ys).
  set (obs := complete_pairs xs ys).
  rewrite length_map, <- !list_fmap_compose. unfold compose. simpl.
  destruct (length obs <? 1)%nat; [done|].
  set (mx := Qmean (obs.*1)). set (my := Qmean (obs.*2)).
  change (Qmean ((λ p : Q * Q, p.2) <$> obs)) with my.
  change (Qmean ((λ p : Q * Q, p.1) <$> obs)) with mx.
  set (ssx := Qsum (map (λ p, (p.1 - mx) * (p.1 - mx))%Q obs)).
  set (ssy := Qsum (map (λ p, (p.2 - my) * (p.2 - my))%Q obs)).
  assert (Ey : Qsum ((λ p : Q * Q, (p.2 - my) * (p.2 - my))%Q <$> obs) = ssy) by done.
  assert (Ex : Qsum ((λ p : Q * Q, (p.1 - mx) * (p.1 - mx))%Q <$> obs) = ssx) by done.
  rewrite Ex, Ey, (Qmult_comm_eq ssy ssx).
  destruct (Qeq_bool (ssx * ssy) 0); [done|].
  do 4 f_equal. apply (list_fmap_ext _ _ obs). intros _ p _. apply Qmult_comm_eq.
Qed.

Lemma pearson_complete xs ys :
  pearson xs ys =
  pearson (map (λ p, Some p.1) (complete_pairs xs ys))
          (map (λ p, Some p.2) (complete_pairs xs ys)).
Proof. unfold pearson. by rewrite complete_pairs_observed. Qed.

Lemma pearson_diag xs :
  pearson xs xs =
  let values := dropna xs in
  let ss := Qsum ((λ x, (x - Qmean values) * (x - Qmean values))%Q <$> values) in
  if (length values <? 1)%nat then None
  else if Qeq_bool (ss * ss) 0 then None
  else Some 1%R.
Proof.
  unfold pearson. rewrite complete_pairs_diag.
  set (values := dropna xs).
  rewrite length_map, <- !list_fmap_compose. unfold compose. simpl.
  rewrite list_fmap_id.
  destruct (length values <? 1)%nat; [done|].
  set (ss := Qsum ((λ x, (x - Qmean values) * (x - Qmean values))%Q <$> values)).
  destruct (Qeq_bool (ss * ss) 0) eqn:Hz; [done|].
  f_equal. apply Qeq_bool_neq in Hz.
  assert (Hpos : (0 <= Q2R ss)%R).
  { rewrite <- RMicromega.Q2R_0. apply Qreals.Qle_Rle, Qsum_nonneg.
    rewrite Forall_fmap. apply Forall_true. intros x. apply Qsquare_nonneg. }
  assert (Hne : Q2R ss ≠ 0%R).
  { intros H0. apply Hz. rewrite <- RMicromega.Q2R_0 in H0.
    apply Qreals.eqR_Qeq in H0. rewrite H0. ring. }
  rewrite Qreals.Q2R_mult, sqrt_square by done. by field.
Qed.

Lemma varies_dropna col :
  varies col ↔ ∃ x y, x ∈ dropna col ∧ y ∈ dropna col ∧ ¬ (x == y)%Q.
Proof.
  assert (Hin : ∀ x, x ∈ dropna col ↔ Some x ∈ col).
  { intros x. unfold dropna. rewrite list_elem_of_omap. split.
    - by intros ([y|] & Hy & [= ->]).
    - intros Hx. by exists (Some x). }
  unfold varies. by setoid_rewrite Hin.
Qed.

(** The diagonal of the matrix: 1 for a column with two different values,
    [NaN] for any other. *)
Lemma pearson_diag_varies xs :
  (varies xs → pearson xs xs = Some 1%R) ∧
  (¬ varies xs → pearson xs xs = None).
Proof.
  rewrite pearson_diag, varies_dropna. simpl.
  set (values := dropna xs).
  set (ss := Qsum ((λ x, (x - Qmean values) * (x - Qmean values))%Q <$> values)).
  assert (Hss : (ss * ss == 0)%Q ↔ Forall (λ x, x == Qmean values)%Q values).
  { rewrite <- sum_sq_zero_iff. fold ss. split.
    - by intros [H|H]%Qmult_integral.
    - intros ->. ring. }
  split.
  - intros (x & y & Hx & Hy & Hxy).
    destruct values as [|v values'] eqn:Hv; [by apply not_elem_of_nil in Hx|].
    simpl. destruct (Qeq_bool (ss * ss) 0) eqn:Hz; [|done].
    apply Qeq_bool_iff, Hss in Hz. rewrite Forall_forall in Hz.
    destruct Hxy. by rewrite (Hz x Hx), (Hz y Hy).
  - intros Hnv. destruct values as [|v values'] eqn:Hv; [done|].
    simpl. destruct (Qeq_bool (ss * ss) 0) eqn:Hz; [done|].
    apply Qeq_bool_neq in Hz. destruct Hz. apply Hss.
    assert (Hall : Forall (λ x, x == v)%Q (v :: values')).
    { apply Forall_forall. intros x Hx.
      destruct (Qeq_dec x v) as [|Hne]; [done|].
      destruct Hnv. exists x, v. split_and!; [done | by left | done]. }
    pose proof (Qmean_const (v :: values') v ltac:(done) Hall) as Hm.
    eapply Forall_impl; [exact Hall|]. intros x Hx. simpl in Hx. by rewrite Hx, Hm.
Qed.

Lemma corr_entry d keys i j :
  entry (corr d keys) i j =
  match keys !! i, keys !! j with
  | Some ki, Some kj => Some (pearson (column ki d) (column kj d))
  | _, _ => None
  end.
Proof.
  unfold entry, corr. rewrite list_lookup_fmap.
  destruct (keys !! i) as [ki|]; simpl; [|done].
  rewrite list_lookup_fmap. by destruct (keys !! j).
Qed.

Lemma complete_pairs_complete_rows (ki kj : Row → option Q) d :
  complete_pairs (column ki d) (column kj d) =
  complete_pairs (column ki (complete_rows ki kj d))
                 (column kj (complete_rows ki kj d)).
Proof.
  unfold complete_pairs, column, complete_rows.
  induction d as [|r d IH]; [done|]. simpl.
  destruct (ki r) as [x|] eqn:Hi, (kj r) as [y|] eqn:Hj; simpl.
  - rewrite Hi, Hj. simpl. f_equal. exact IH.
  - exact IH.
  - exact IH.
  - exact IH.
Qed.

(** C7: the matrix is square and symmetric; the entry of two columns is
    computed from the rows that have a value in both of them and from no
    other row, whatever the other columns hold; a diagonal entry is [NaN]
    when its column has no two values that differ (no value, one value, or
    one value repeated), and 1 when its column has two values that differ
    and holds integers of ordinary size. *)
Theorem corr_symmetric_diagonal d keys :
  (length (corr d keys) = length keys ∧
   Forall (λ row, length row = length keys) (corr d keys)) ∧
  (∀ i j, entry (corr d keys) i j = entry (corr d keys) j i) ∧
  (∀ i j ki kj, keys !! i = Some ki → keys !! j = Some kj →
     entry (corr d keys) i j =
       Some (pearson (column ki (complete_rows ki kj d))
                     (column kj (complete_rows ki kj d))) ∧
     Forall (λ r, is_Some (ki r) ∧ is_Some (kj r)) (complete_rows ki kj d)) ∧
  (∀ i ki, keys !! i = Some ki →
     (¬ varies (column ki d) → entry (corr d keys) i i = Some None) ∧
     (varies (column ki d) → small_integers (column ki d) →
      entry (corr d keys) i i = Some (Some 1%R))).
Proof.
  split_and!.
  - unfold corr. apply length_map.
  - unfold corr. rewrite Forall_fmap. apply Forall_true. intros k. apply length_map.
  - intros i j. rewrite !corr_entry.
    destruct (keys !! i) as [ki|], (keys !! j) as [kj|]; try done.
    by rewrite pearson_sym.
  - intros i j ki kj Hi Hj. split.
    + rewrite corr_entry, Hi, Hj. f_equal.
      unfold pearson. by rewrite <- complete_pairs_complete_rows.
    + apply Forall_forall. intros r [_ Hr]%List_filter_elem_of.
      by apply bool_decide_eq_true in Hr.
  - intros i ki Hi. rewrite corr_entry, Hi.
    destruct (pearson_diag_varies (column ki d)) as [H1 H0].
    split; [intros Hv | intros Hv _]; f_equal; auto.
Qed.

(** C7, as claimed: in the frame of the worked example the column
    [Length of Stay] has a single value, and its diagonal entry is [NaN],
    not 1; so is every entry for the empty frame. *)
Lemma corr_diagonal_nan :
  entry (corr Examples.df heatmap_keys) 2 2 = Some None ∧
  entry (corr Examples.df heatmap_keys) 2 2 ≠ Some (Some 1%R) ∧
  entry (corr [] heatmap_keys) 0 0 = Some None.
Proof.
  assert (H : entry (corr Examples.df heatmap_keys) 2 2 = Some None)
    by (vm_compute; reflexivity).
  split_and!; [exact H | by rewrite H | by vm_compute].
Qed.

(** ** The properties on the worked examples *)

Lemma IsoDate_to_datetime_length col :
  length (i8 (IsoDate.to_datetime col)) = length col.
Proof. apply length_map. Qed.

(** The parser on a few cells: the epoch, a leap day, a day that does not
    exist, a day before the first timestamp, and text that is not a date. *)
Example parse_date_cells :
  IsoDate.to_datetime
    [Some "1970-01-01"; Some "2020-02-29"; Some "2021-02-29"; Some "1600-01-01";
     Some "unparseable"; None]
  = mkDatetimeColumn false
      [Some 0%Z; Some (18321 * ns_per_day)%Z; None; None; None; None].
Proof. by vm_compute. Qed.

Example load_data_example :
  load_data IsoDate.to_datetime Examples.csv = Returns Examples.df.
Proof. by vm_compute. Qed.

(** A discharge before the admission gives a negative length of stay. *)
Example length_of_stay_negative :
  ∃ df, load_data IsoDate.to_datetime Examples.csv_reversed = Returns df ∧
        column Length_of_Stay df = [Some (-1)%Z].
Proof. eexists. split; by vm_compute. Qed.

(** After [.unstack().fillna(0)] the table does have zeros: one for each
    pair of an observed condition and an observed gender that no row has. *)
Example gender_condition_fills_zero :
  group_count Medical_Condition Gender Examples.df !! ("Diabetes", "Female") = None ∧
  gender_condition Examples.df "Diabetes" "Female" = Some 0.
Proof. split; by vm_compute. Qed.

(** C1, as claimed: both dates of the row parse, 1700-01-01 and
    2200-01-01, and loading raises [OverflowError]; the row gets no length
    of stay. *)
Lemma load_data_far_apart_raises :
  (∃ a d,
     i8 (admission_column IsoDate.to_datetime Examples.csv_far_apart) !! 0
       = Some (Some a) ∧
     i8 (discharge_column IsoDate.to_datetime Examples.csv_far_apart) !! 0
       = Some (Some d)) ∧
  load_data IsoDate.to_datetime Examples.csv_far_apart = Raises OverflowError.
Proof. split; [eexists _, _; split; by vm_compute | by vm_compute]. Qed.


Lemma load_data_length_of_stay_witness :
  ∃ df r, load_data IsoDate.to_datetime Examples.csv = Returns df ∧
          df !! 0 = Some r ∧ Length_of_Stay r = Some 4%Z.
Proof.
  destruct (load_data_length_of_stay IsoDate.to_datetime IsoDate_to_datetime_length
              Examples.csv) as (_ & _ & _ & Hrow).
  destruct (Hrow Examples.df 0 1577836800000000000%Z 1578182400000000000%Z)
    as (r & Hr & _ & _ & Hlos & _);
    [by vm_compute | by vm_compute | by vm_compute | by vm_compute |].
  exists Examples.df, r. split_and!; [by vm_compute | exact Hr | exact Hlos].
Defined.


Lemma summarize_no_data_witness :
  mean_billing_amount (summarize Examples.three_male_diabetes) = None.
Proof.
  destruct summarize_no_data as [_ Hd].
  destruct (Hd Examples.three_male_diabetes) as (_ & _ & Hb).
  apply Hb. repeat constructor.
Defined.


Lemma group_count_observed_witness :
  group_count Medical_Condition Gender Examples.three_male_diabetes
  = {[ ("Diabetes", "Male") := 3 ]}.
Proof.
  destruct (group_count_observed Medical_Condition Gender Examples.df)
    as (_ & _ & Hex).
  destruct (Hex Examples.three_male_diabetes) as [Hm _];
    [reflexivity | repeat constructor | exact Hm].
Defined.

Lemma filtering_leaves_df_unchanged_witness :
  ∃ σ' l,
    Session.lines_34_38 (Some "Male") (Some "All") Examples.session = Some (tt, σ') ∧
    Session.objects σ' !! 1%positive = Some Examples.df ∧
    Session.var_filtered_df σ' = Some l ∧
    l ≠ 1%positive ∧
    Session.objects σ' !! l = Some (filtered_df Examples.df (Some "Male") (Some "All")).
Proof.
  destruct (filtering_leaves_df_unchanged Examples.session Examples.df
              (Some "Male") (Some "All"))
    as (σ' & l & Hrun & Hdf & Hsame & _ & Hl & Hne & Hf); [reflexivity|].
  exists σ', l. rewrite Hdf in Hsame.
  split_and!; [exact Hrun | exact Hsame | exact Hl | exact Hne | exact Hf].
Defined.

Lemma corr_symmetric_diagonal_witness :
  entry (corr Examples.df heatmap_keys) 0 0 = Some (Some 1%R) ∧
  entry (corr Examples.df heatmap_keys) 2 2 = Some None.
Proof.
  destruct (corr_symmetric_diagonal Examples.df heatmap_keys)
    as (_ & _ & _ & Hdiag).
  split.
  - destruct (Hdiag 0 (λ r, astype_float (Age r)) eq_refl) as [_ Hone].
    apply Hone.
    + exists (inject_Z 45), (inject_Z 30).
      split_and!; [by left | right; by left | discriminate].
    + intros x Hx. vm_compute in Hx.
      apply elem_of_cons in Hx as [Hx|Hx];
        [injection Hx as ->; exists 45%Z; split; [reflexivity | by vm_compute]|].
      apply elem_of_cons in Hx as [Hx|Hx];
        [injection Hx as ->; exists 30%Z; split; [reflexivity | by vm_compute]|].
      by apply not_elem_of_nil in Hx.
  - destruct (Hdiag 2 (λ r, astype_float (Length_of_Stay r)) eq_refl) as [Hnan _].
    apply Hnan. intros (x & y & Hx & Hy & Hxy). vm_compute in Hx, Hy.
    apply elem_of_cons in Hx as [Hx|Hx];
      [|apply elem_of_cons in Hx as [Hx|Hx]; [done | by apply not_elem_of_nil in Hx]].
    apply elem_of_cons in Hy as [Hy|Hy];
      [|apply elem_of_cons in Hy as [Hy|Hy]; [done | by apply not_elem_of_nil in Hy]].
    apply Hxy. injection Hx as ->. injection Hy as ->. reflexivity.
Defined.

(** * Further properties of the script *)

(** ** The sidebar options and what selecting one gives *)

Lemma unique_from_elem_of `{EqDecision A} (seen s : list A) x :
  x ∈ unique_from seen s ↔ x ∈ s ∧ x ∉ seen.
Proof.
  revert seen. induction s as [|y s IH]; intros seen; simpl.
  - split; [by intros ?%not_elem_of_nil | by intros [?%not_elem_of_nil _]].
  - case_decide as Hy.
    + rewrite IH, elem_of_cons. split; [intros [? ?]; by split; [right|] |].
      intros [[->|?] ?]; [done | by split].
    + rewrite !elem_of_cons, IH, elem_of_cons. split.
      * intros [->|[? ?]]; [by split; [left|] | split; [by right | tauto]].
      * intros [[->|?] ?]; [by left|].
        destruct (decide (x = y)) as [->|]; [by left | right; tauto].
Qed.

Lemma unique_from_NoDup `{EqDecision A} (seen s : list A) :
  NoDup (unique_from seen s).
Proof.
  revert seen. induction s as [|y s IH]; intros seen; simpl; [constructor|].
  case_decide; [apply IH|]. constructor; [|apply IH].
  rewrite unique_from_elem_of, elem_of_cons. tauto.
Qed.

Lemma unique_from_snoc `{EqDecision A} (seen s : list A) x :
  unique_from seen (s ++ [x]) =
  if decide (x ∈ seen ++ s) then unique_from seen s else unique_from seen s ++ [x].
Proof.
  revert seen. induction s as [|y s IH]; intros seen; simpl.
  - rewrite app_nil_r. by case_decide.
  - case_decide as Hy.
    + rewrite IH. repeat case_decide; try done; exfalso;
        rewrite ?elem_of_app, ?elem_of_cons in *; intuition congruence.
    + rewrite (IH (y :: seen)). repeat case_decide; try done; exfalso;
        rewrite ?elem_of_app, ?elem_of_cons in *; intuition congruence.
Qed.

(** X1: [unique] lists every value of the column once, and in the order
    in which the values first appear: a value added at the end of the column
    is added at the end of the result when it is new, and changes nothing
    when it has been seen. *)
Theorem unique_first_appearance `{EqDecision A} (s : list A) :
  NoDup (unique s) ∧
  (∀ x, x ∈ unique s ↔ x ∈ s) ∧
  (∀ x, unique (s ++ [x]) = if decide (x ∈ s) then unique s else unique s ++ [x]).
Proof.
  split_and!.
  - apply unique_from_NoDup.
  - intros x. unfold unique. rewrite unique_from_elem_of.
    split; [tauto|]. intros ?. split; [done | apply not_elem_of_nil].
  - intros x. unfold unique. rewrite unique_from_snoc. simpl.
    by repeat case_decide.
Qed.

Lemma unique_elem_of `{EqDecision A} (s : list A) x : x ∈ unique s ↔ x ∈ s.
Proof.
  unfold unique. rewrite unique_from_elem_of.
  split; [tauto|]. intros ?. split; [done | apply not_elem_of_nil].
Qed.

(** X2: every gender of the frame is offered in the select box, and the
    options are pairwise different exactly when no row has the gender
    ['All']: such a value would be listed a second time. *)
Theorem gender_options_offered df :
  (∀ r, r ∈ df → Gender r ∈ gender_options df) ∧
  (NoDup (gender_options df) ↔ Some "All" ∉ column Gender df).
Proof.
  unfold gender_options. split.
  - intros r Hr. right. apply unique_elem_of. unfold column.
    apply list_elem_of_fmap. by exists r.
  - rewrite NoDup_cons, unique_elem_of. split; [tauto|].
    intros ?. split; [done | apply unique_from_NoDup].
Qed.

Lemma List_filter_ext_in {A} (p q : A → bool) l :
  (∀ x, x ∈ l → p x = q x) → List.filter p l = List.filter q l.
Proof.
  induction l as [|x l IH]; intros Hpq; [done|]. simpl.
  rewrite (Hpq x) by left. rewrite IH; [done|].
  intros y Hy. apply Hpq. by right.
Qed.

Lemma List_filter_false {A} (p : A → bool) l :
  (∀ x, p x = false) → List.filter p l = [].
Proof. intros Hp. induction l as [|x l IH]; [done|]. simpl. by rewrite Hp. Qed.

Lemma eq_cell_true x v : eq_cell x v = true ↔ ∃ s, x = Some s ∧ v = Some s.
Proof.
  destruct x as [a|], v as [b|]; simpl; try (split; [done | by intros (? & ? & ?)]).
  destruct (String.eqb_spec a b) as [->|Hne]; split; try done.
  - intros _. by exists b.
  - intros (s & ? & ?). simplify_eq.
Qed.

Lemma selected_gender_only s r :
  s ≠ "All" → selected (Some s) (Some "All") r = eq_cell (Gender r) (Some s).
Proof.
  intros Hs. unfold selected. simpl.
  destruct (String.eqb_spec s "All"); [done|]. simpl. apply andb_true_r.
Qed.

Lemma selected_condition_only s r :
  s ≠ "All" → selected (Some "All") (Some s) r = eq_cell (Medical_Condition r) (Some s).
Proof.
  intros Hs. unfold selected. simpl.
  destruct (String.eqb_spec s "All"); [done|]. done.
Qed.

(** X3: an option of a select box other than ['All'] always has rows: the
    frame filtered by it alone is not empty, and all of its rows have the
    selected value. *)
Theorem offered_selection_has_rows df s :
  s ≠ "All" →
  (Some s ∈ gender_options df →
     filtered_df df (Some s) (Some "All") ≠ [] ∧
     Forall (λ r, Gender r = Some s) (filtered_df df (Some s) (Some "All"))) ∧
  (Some s ∈ condition_options df →
     filtered_df df (Some "All") (Some s) ≠ [] ∧
     Forall (λ r, Medical_Condition r = Some s) (filtered_df df (Some "All") (Some s))).
Proof.
  intros Hs. split; intros [Heq|Hin]%elem_of_cons; try congruence;
    apply unique_elem_of, list_elem_of_fmap in Hin as (r & Hr & Hin);
    rewrite filtered_df_filter.
  - split.
    + intros Hnil. assert (Hmem : r ∈ List.filter (selected (Some s) (Some "All")) df).
      { apply List_filter_elem_of. split; [done|].
        rewrite selected_gender_only by done. apply eq_cell_true. by exists s. }
      rewrite Hnil in Hmem. by apply not_elem_of_nil in Hmem.
    + apply Forall_forall. intros x [_ Hx]%List_filter_elem_of.
      rewrite selected_gender_only in Hx by done.
      apply eq_cell_true in Hx as (s' & ? & ?). congruence.
  - split.
    + intros Hnil. assert (Hmem : r ∈ List.filter (selected (Some "All") (Some s)) df).
      { apply List_filter_elem_of. split; [done|].
        rewrite selected_condition_only by done. apply eq_cell_true. by exists s. }
      rewrite Hnil in Hmem. by apply not_elem_of_nil in Hmem.
    + apply Forall_forall. intros x [_ Hx]%List_filter_elem_of.
      rewrite selected_condition_only in Hx by done.
      apply eq_cell_true in Hx as (s' & ? & ?). congruence.
Qed.

(** X4: the option [NaN], offered when a column has an empty cell, selects
    nothing: the filtered frame is empty, also when rows with an empty cell
    exist. *)
Theorem nan_selection_is_empty df g c :
  filtered_df df None c = [] ∧ filtered_df df g None = [].
Proof.
  rewrite !filtered_df_filter. split; apply List_filter_false; intros r;
    unfold selected; simpl.
  - by destruct (Gender r).
  - rewrite andb_false_iff. right. by destruct (Medical_Condition r).
Qed.

Lemma sum_list_fmap_add {A} (f g : A → nat) l :
  sum_list ((λ x, f x + g x) <$> l) = sum_list (f <$> l) + sum_list (g <$> l).
Proof. induction l as [|x l IH]; [done|]. csimpl. rewrite IH. lia. Qed.

Lemma sum_list_indicator (c : option string) ks :
  NoDup ks →
  sum_list ((λ o, if eq_cell c o then 1 else 0) <$> ks) =
  if bool_decide (is_Some c ∧ c ∈ ks) then 1 else 0.
Proof.
  induction 1 as [|k ks Hk _ IH]; csimpl.
  - rewrite bool_decide_eq_false_2; [done|]. by intros [_ ?%not_elem_of_nil].
  - rewrite IH. destruct (eq_cell c k) eqn:Hc.
    + apply eq_cell_true in Hc as (s & -> & ->).
      rewrite bool_decide_eq_false_2 by tauto.
      rewrite bool_decide_eq_true_2; [done|]. split; [done | by left].
    + assert (Hne : is_Some c → c ≠ k).
      { intros [s ->] <-. assert (eq_cell (Some s) (Some s) = true)
          by (apply eq_cell_true; by exists s). congruence. }
      simpl. apply (f_equal (λ b : bool, if b then 1 else 0)).
      apply bool_decide_ext. rewrite elem_of_cons.
      split; [intros [? ?]; split; [done | by right] |].
      intros [Hs [->|?]]; [by destruct (Hne Hs) | done].
Qed.

Lemma count_by_option (col : Row → option string) ks d :
  NoDup ks →
  sum_list ((λ o, length (List.filter (λ r, eq_cell (col r) o) d)) <$> ks) =
  length (List.filter (λ r, bool_decide (is_Some (col r) ∧ col r ∈ ks)) d).
Proof.
  intros Hks. induction d as [|r d IH].
  - simpl. by rewrite sum_list_fmap_const.
  - rewrite (list_fmap_ext _ (λ o, (if eq_cell (col r) o then 1 else 0) +
                  length (List.filter (λ r0, eq_cell (col r0) o) d)) ks).
    2:{ intros _ o _. simpl. by destruct (eq_cell (col r) o). }
    rewrite sum_list_fmap_add, IH, (sum_list_indicator (col r) ks Hks).
    simpl. by case_bool_decide.
Qed.

Lemma length_filter_is_Some {A} (col : Row → option A) d :
  length (List.filter (λ r, bool_decide (is_Some (col r))) d) =
  length (dropna (column col d)).
Proof.
  unfold dropna, column. induction d as [|r d IH]; [done|]. simpl.
  destruct (col r); simpl; by rewrite IH.
Qed.

(** X5: when no row has the gender ['All'], the frames given by the gender
    options split the rows that have a gender: the row counts over the
    options of [unique] add up to the number of such rows. *)
Theorem gender_options_partition df :
  Some "All" ∉ column Gender df →
  sum_list ((λ o, length (filtered_df df o (Some "All"))) <$> unique (column Gender df))
  = length (dropna (column Gender df)).
Proof.
  intros HAll. rewrite <- length_filter_is_Some.
  erewrite (List_filter_ext_in _ (λ r, bool_decide (is_Some (Gender r) ∧
                                     Gender r ∈ unique (column Gender df)))).
  2:{ intros r Hr. apply bool_decide_ext. rewrite unique_elem_of.
      split; [|tauto]. intros ?. split; [done|].
      apply list_elem_of_fmap. by exists r. }
  rewrite <- (count_by_option Gender) by apply unique_from_NoDup.
  f_equal. apply list_fmap_ext. intros i o Ho.
  apply list_elem_of_lookup_2 in Ho. rewrite unique_elem_of in Ho.
  rewrite filtered_df_filter. f_equal. apply List_filter_ext. intros r.
  destruct o as [s|].
  - apply selected_gender_only. intros ->. by apply HAll.
  - unfold selected. simpl. by destruct (Gender r).
Qed.

(** ** Results in index order *)

Section SortIndexFacts.
Context `{Countable K} {V : Type}.
Variable le : relation K.
Context `{∀ x y, Decision (le x y)}.

Lemma sort_index_Permutation (m : gmap K V) : sort_index le m ≡ₚ map_to_list m.
Proof. unfold sort_index. apply merge_sort_Permutation. Qed.

Lemma sort_index_elem_of (m : gmap K V) k v :
  (k, v) ∈ sort_index le m ↔ m !! k = Some v.
Proof. by rewrite sort_index_Permutation, elem_of_map_to_list. Qed.

Lemma sort_index_NoDup (m : gmap K V) : NoDup (sort_index le m).*1.
Proof. rewrite sort_index_Permutation. apply NoDup_fst_map_to_list. Qed.

Lemma sort_index_Sorted (m : gmap K V) :
  Total le → Sorted le (sort_index le m).*1.
Proof.
  intros Htot. unfold sort_index.
  apply (Sorted_fmap fst (λ p q, le p.1 q.1) le); [done|].
  assert (Total (λ p q : K * V, le p.1 q.1)) by (intros p q; apply Htot).
  by apply (Sorted_merge_sort (λ p q : K * V, le p.1 q.1)).
Qed.

(** With a transitive order, the keys are strictly ascending. *)
Lemma sort_index_strict (m : gmap K V) :
  Total le → Transitive le →
  StronglySorted (λ x y, le x y ∧ x ≠ y) (sort_index le m).*1.
Proof.
  intros Htot Htrans.
  pose proof (sort_index_NoDup m) as Hnd.
  pose proof (Sorted_StronglySorted le _ (sort_index_Sorted m Htot)) as Hs.
  induction Hs as [|x l _ IH Hx]; [constructor|].
  apply NoDup_cons in Hnd as [Hxl Hnd]. constructor; [by apply IH|].
  apply Forall_forall. intros y Hy. split.
  - by eapply Forall_forall in Hx.
  - intros ->. done.
Qed.
End SortIndexFacts.

(** ** Counting values *)

Lemma sum_list_Permutation (l l' : list nat) : l ≡ₚ l' → sum_list l = sum_list l'.
Proof. induction 1; simpl; lia. Qed.

Lemma total_count_increment `{Countable K} (m : gmap K nat) k :
  total_count (<[k := S (default 0 (m !! k))]> m) = S (total_count m).
Proof.
  unfold total_count. destruct (m !! k) as [x|] eqn:Hk; simpl.
  - rewrite <- (insert_delete_eq m k (S x)).
    rewrite (sum_list_Permutation _ (((k, S x) :: map_to_list (delete k m)).*2)).
    2:{ apply fmap_Permutation, map_to_list_insert, lookup_delete_eq. }
    rewrite (sum_list_Permutation (map_to_list m).*2
               (((k, x) :: map_to_list (delete k m)).*2)).
    2:{ apply fmap_Permutation. symmetry. by apply map_to_list_delete. }
    done.
  - rewrite (sum_list_Permutation _ (((k, 1) :: map_to_list m).*2)); [done|].
    by apply fmap_Permutation, map_to_list_insert.
Qed.

Lemma value_counts_lookup `{Countable K} (s : list (option K)) k :
  value_counts s !! k =
  match count_value k s with
  | O => None
  | S n => Some (S n)
  end.
Proof.
  unfold count_value, value_counts.
  induction s as [|x s IH]; [done|]. simpl.
  destruct x as [k'|].
  - destruct (decide (k' = k)) as [->|Hne].
    + rewrite bool_decide_eq_true_2 by done. rewrite lookup_insert_eq, IH. simpl.
      by destruct (length _).
    + rewrite bool_decide_eq_false_2 by congruence. by rewrite lookup_insert_ne.
  - by rewrite bool_decide_eq_false_2.
Qed.

Lemma value_counts_total `{Countable K} (s : list (option K)) :
  total_count (value_counts s) = length (dropna s).
Proof.
  induction s as [|[k|] s IH]; [done| |done].
  change (value_counts (Some k :: s))
    with (<[k := S (default 0 (value_counts s !! k))]> (value_counts s)).
  rewrite total_count_increment, IH. done.
Qed.

(** X6: the age chart has one bar per age that occurs, in strictly
    ascending order of age, and the height of a bar is the number of rows
    with that age. *)
Theorem age_counts_sorted d :
  StronglySorted Z.lt (age_counts d).*1 ∧
  ∀ a n, (a, n) ∈ age_counts d ↔ 0 < n ∧ n = count_value a (column Age d).
Proof.
  unfold age_counts. split.
  - assert (Htot : Total Z.le) by (intros x y; lia).
    assert (Htrans : Transitive Z.le) by (intros x y z; lia).
    pose proof (sort_index_strict Z.le (value_counts (column Age d)) Htot Htrans) as Hs.
    induction Hs as [|x l _ IH Hx]; constructor; [done|].
    eapply Forall_impl; [exact Hx|]. intros y [? ?]. simpl in *. lia.
  - intros a n. rewrite sort_index_elem_of, value_counts_lookup.
    destruct (count_value a (column Age d)); split; try done.
    + intros [? ?]. lia.
    + intros [= <-]. split; [lia | done].
    + by intros [_ ->].
Qed.

(** X7: the heights of the bars of the age chart add up to the number of
    rows that have an age. *)
Theorem age_counts_total d :
  sum_list (age_counts d).*2 = length (dropna (column Age d)).
Proof.
  unfold age_counts. rewrite <- value_counts_total. unfold total_count.
  apply sum_list_Permutation, fmap_Permutation, sort_index_Permutation.
Qed.

(** ** The cross-tabulation as a table *)

Section CrossTabFacts.
Context `{Countable A, Countable B}.
Variable keyA : Row → option A.
Variable keyB : Row → option B.

Lemma count_rows_pos a b d :
  0 < count_rows keyA keyB a b d ↔ ∃ r, r ∈ d ∧ keyA r = Some a ∧ keyB r = Some b.
Proof.
  unfold count_rows. split.
  - destruct (List.filter _ d) as [|r l] eqn:Hf; simpl; [lia|]. intros _.
    assert (Hr : r ∈ r :: l) by left. rewrite <- Hf in Hr.
    apply List_filter_elem_of in Hr as [Hr Hk]. apply bool_decide_eq_true in Hk.
    by exists r.
  - intros (r & Hr & Ha & Hb).
    assert (Hin : r ∈ List.filter
                    (λ r, bool_decide (keyA r = Some a ∧ keyB r = Some b)) d).
    { apply List_filter_elem_of. split; [done|]. by apply bool_decide_eq_true. }
    destruct (List.filter _ d); [by apply not_elem_of_nil in Hin | simpl; lia].
Qed.

Lemma group_count_is_Some a b d :
  is_Some (group_count keyA keyB d !! (a, b)) ↔
  ∃ r, r ∈ d ∧ keyA r = Some a ∧ keyB r = Some b.
Proof.
  rewrite group_count_lookup, <- count_rows_pos.
  destruct (count_rows keyA keyB a b d).
  - split; [by intros [? ?] | lia].
  - split; [lia | by eexists].
Qed.

Lemma group_count_default a b d :
  default 0 (group_count keyA keyB d !! (a, b)) = count_rows keyA keyB a b d.
Proof. rewrite group_count_lookup. by destruct (count_rows keyA keyB a b d). Qed.

(** X8: the counts of the groups add up to the number of rows in which
    both keys have a value. *)
Theorem group_count_total d :
  total_count (group_count keyA keyB d) =
  length (List.filter (λ r, bool_decide (is_Some (keyA r) ∧ is_Some (keyB r))) d).
Proof.
  induction d as [|r d IH]; [done|].
  unfold group_count in *. simpl.
  destruct (keyA r) as [a|], (keyB r) as [b|]; simpl.
  - by rewrite total_count_increment, IH.
  - exact IH.
  - exact IH.
  - exact IH.
Qed.

(** X9: after [.unstack().fillna(0)] the table has a cell for [a] and [b]
    exactly when [a] is the first key of some group and [b] the second key
    of some group, and the cell holds the number of rows with both keys,
    which is 0 when there is no such row. *)
Theorem unstack_fillna_cells d a b n :
  unstack_fillna (group_count keyA keyB d) a b = Some n ↔
  (∃ r, r ∈ d ∧ keyA r = Some a ∧ is_Some (keyB r)) ∧
  (∃ r, r ∈ d ∧ keyB r = Some b ∧ is_Some (keyA r)) ∧
  n = count_rows keyA keyB a b d.
Proof.
  unfold unstack_fillna.
  assert (HA : a ∈ (set_map fst (dom (group_count keyA keyB d)) : gset A) ↔
               ∃ r, r ∈ d ∧ keyA r = Some a ∧ is_Some (keyB r)).
  { rewrite elem_of_map. split.
    - intros ([a' b'] & -> & Hin). apply elem_of_dom, group_count_is_Some in Hin
        as (r & ? & ? & ?). exists r. eauto.
    - intros (r & ? & ? & [b' ?]). exists (a, b'). split; [done|].
      apply elem_of_dom, group_count_is_Some. by exists r. }
  assert (HB : b ∈ (set_map snd (dom (group_count keyA keyB d)) : gset B) ↔
               ∃ r, r ∈ d ∧ keyB r = Some b ∧ is_Some (keyA r)).
  { rewrite elem_of_map. split.
    - intros ([a' b'] & -> & Hin). apply elem_of_dom, group_count_is_Some in Hin
        as (r & ? & ? & ?). exists r. eauto.
    - intros (r & ? & ? & [a' ?]). exists (a', b). split; [done|].
      apply elem_of_dom, group_count_is_Some. by exists r. }
  rewrite <- HA, <- HB, group_count_default. case_decide as Hd.
  - split; [intros [= <-]; tauto | by intros (_ & _ & ->)].
  - split; [done | tauto].
Qed.
End CrossTabFacts.

(** X10: a bar of the gender by condition chart is as high as the sidebar's
    [Total entries] after selecting that gender and that condition. *)
Theorem gender_condition_matches_filter d g c :
  g ≠ "All" → c ≠ "All" →
  count (summarize (filtered_df d (Some g) (Some c))) =
    default 0 (group_count Medical_Condition Gender d !! (c, g)) ∧
  ∀ n, gender_condition d c g = Some n →
       count (summarize (filtered_df d (Some g) (Some c))) = n.
Proof.
  intros Hg Hc.
  assert (Hlen : length (filtered_df d (Some g) (Some c)) =
                 count_rows Medical_Condition Gender c g d).
  { rewrite filtered_df_filter. unfold count_rows. f_equal.
    apply List_filter_ext. intros r. unfold selected. simpl.
    destruct (String.eqb_spec g "All"), (String.eqb_spec c "All"); try done. simpl.
    destruct (eq_cell (Gender r) (Some g)) eqn:E1,
             (eq_cell (Medical_Condition r) (Some c)) eqn:E2; simpl; symmetry.
    - apply eq_cell_true in E1 as (? & ? & ?), E2 as (? & ? & ?).
      apply bool_decide_eq_true. split; congruence.
    - apply bool_decide_eq_false. intros [Hm _].
      assert (eq_cell (Medical_Condition r) (Some c) = true)
        by (apply eq_cell_true; eauto). congruence.
    - apply bool_decide_eq_false. intros [_ Hm].
      assert (eq_cell (Gender r) (Some g) = true) by (apply eq_cell_true; eauto).
      congruence.
    - apply bool_decide_eq_false. intros [_ Hm].
      assert (eq_cell (Gender r) (Some g) = true) by (apply eq_cell_true; eauto).
      congruence. }
  simpl. rewrite Hlen, group_count_default. split; [done|].
  intros n Hn. unfold gender_condition, unstack_fillna in Hn.
  case_decide; [|done]. rewrite group_count_default in Hn. congruence.
Qed.

(** ** Means by group *)

Lemma String_le_total : Total String_le.
Proof. intros s t. apply String.leb_total. Qed.

Lemma String_le_lt s t : String_le s t ↔ String_as_OT.lt s t ∨ s = t.
Proof.
  unfold String_le, String.leb.
  destruct (String.compare s t) eqn:Hc.
  - apply String_as_OT.cmp_eq in Hc. tauto.
  - apply String_as_OT.cmp_lt in Hc. tauto.
  - split; [done|]. intros [Hlt | ->].
    + apply String_as_OT.cmp_lt in Hlt. unfold String_as_OT.cmp in Hlt. congruence.
    + assert (String.compare t t = Eq) by (by apply String_as_OT.cmp_eq).
      congruence.
Qed.

Lemma String_le_trans : Transitive String_le.
Proof.
  intros s t u. rewrite !String_le_lt. intros [H1 | ->] [H2 | ->]; try tauto.
  left. by eapply String_as_OT.lt_trans.
Qed.

Section GroupByMeanFacts.
Context `{Countable K}.
Variable key : Row → option K.
Variable value : Row → option Q.

Lemma groupby_values_lookup d k :
  groupby_values key value d !! k =
  match group_rows key k d with
  | [] => None
  | rows => Some (map value rows)
  end.
Proof.
  unfold groupby_values, group_rows.
  induction d as [|r d IH]; [done|]. simpl.
  destruct (key r) as [k'|] eqn:Hk.
  - destruct (decide (k' = k)) as [->|Hne].
    + rewrite bool_decide_eq_true_2 by done. rewrite lookup_insert_eq, IH.
      by destruct (List.filter _ d).
    + rewrite bool_decide_eq_false_2 by congruence. by rewrite lookup_insert_ne.
  - by rewrite bool_decide_eq_false_2.
Qed.

Lemma group_rows_nonempty d k :
  group_rows key k d ≠ [] ↔ ∃ r, r ∈ d ∧ key r = Some k.
Proof.
  unfold group_rows. split.
  - destruct (List.filter _ d) as [|r l] eqn:Hf; [done|]. intros _.
    assert (Hr : r ∈ r :: l) by left. rewrite <- Hf in Hr.
    apply List_filter_elem_of in Hr as [Hr Hk]. apply bool_decide_eq_true in Hk.
    by exists r.
  - intros (r & Hr & Hk) Hnil.
    assert (Hin : r ∈ List.filter (λ r, bool_decide (key r = Some k)) d).
    { apply List_filter_elem_of. split; [done|]. by apply bool_decide_eq_true. }
    rewrite Hnil in Hin. by apply not_elem_of_nil in Hin.
Qed.

Lemma groupby_mean_lookup d k v :
  groupby_mean key value d !! k = Some v ↔
  (∃ r, r ∈ d ∧ key r = Some k) ∧ v = mean (map value (group_rows key k d)).
Proof.
  unfold groupby_mean. rewrite lookup_fmap, groupby_values_lookup.
  rewrite <- group_rows_nonempty.
  destruct (group_rows key k d) as [|r rows]; simpl.
  - split; [done | by intros [? _]].
  - split; [by intros [= <-] | by intros [_ ->]].
Qed.
End GroupByMeanFacts.

(** X11: the hospital chart has one bar per hospital that occurs, in
    strictly ascending order of the names; the height of a bar is computed
    from the amounts of the rows of that hospital alone, in row order, and is
    [NaN] when none of them has an amount. *)
Theorem avg_billing_by_hospital_entries group_mean d :
  StronglySorted (λ s t, String_le s t ∧ s ≠ t)
                 (avg_billing_by_hospital group_mean d).*1 ∧
  ∀ h v, (h, v) ∈ avg_billing_by_hospital group_mean d ↔
         (∃ r, r ∈ d ∧ Hospital r = Some h) ∧
         v = match dropna (column Billing_Amount (group_rows Hospital h d)) with
             | [] => None
             | amounts => group_mean amounts
             end.
Proof.
  unfold avg_billing_by_hospital. split.
  - apply sort_index_strict; [apply String_le_total | apply String_le_trans].
  - intros h v. rewrite sort_index_elem_of.
    unfold groupby_float_mean. rewrite lookup_fmap, groupby_values_lookup.
    rewrite <- (group_rows_nonempty Hospital). unfold column.
    destruct (group_rows Hospital h d) as [|r rows]; simpl.
    + split; [done | by intros [? _]].
    + split; [by intros [= <-] | by intros [_ ->]].
Qed.

(** X12: the line chart has one point per admission date that occurs, in
    strictly ascending order of the dates, and a point shows the sidebar's
    average length of stay of the rows admitted at that date. *)
Theorem line_chart_data_entries d :
  StronglySorted Z.lt (line_chart_data d).*1 ∧
  ∀ a v, (a, v) ∈ line_chart_data d ↔
         (∃ r, r ∈ d ∧ Date_of_Admission r = Some a) ∧
         v = mean_length_of_stay (summarize (group_rows Date_of_Admission a d)).
Proof.
  unfold line_chart_data. split.
  - assert (Htot : Total Z.le) by (intros x y; lia).
    assert (Htrans : Transitive Z.le) by (intros x y z; lia).
    pose proof (sort_index_strict Z.le
      (groupby_mean Date_of_Admission (λ r, astype_float (Length_of_Stay r)) d)
      Htot Htrans) as Hs.
    induction Hs as [|x l _ IH Hx]; constructor; [done|].
    eapply Forall_impl; [exact Hx|]. intros y [? ?]. simpl in *. lia.
  - intros a v. rewrite sort_index_elem_of, groupby_mean_lookup. simpl.
    unfold column. by rewrite <- list_fmap_compose.
Qed.

(** ** More on loading *)

Lemma filtered_df_elem_of d g c r : r ∈ filtered_df d g c → r ∈ d.
Proof. rewrite filtered_df_filter, List_filter_elem_of. tauto. Qed.

(** X13: in a frame loaded and then filtered, every row that has a length
    of stay has an admission date, and the line chart has a point at that
    date whose mean is a number, not [NaN]: dropping the rows without an
    admission date loses no length of stay. *)
Theorem line_chart_covers_stays to_datetime csv df g c r n :
  load_data to_datetime csv = Returns df →
  let frame := filtered_df df g c in
  r ∈ frame → Length_of_Stay r = Some n →
  ∃ a v, Date_of_Admission r = Some a ∧ (a, Some v) ∈ line_chart_data frame.
Proof.
  intros Hload frame Hr Hn.
  destruct (load_data_elem_of to_datetime csv df r Hload
              (filtered_df_elem_of _ _ _ _ Hr)) as (t & Hsub & Hlos).
  destruct (Date_of_Admission r) as [a|] eqn:Ha.
  2:{ rewrite sub_datetime_NaT in Hsub by tauto. injection Hsub as <-.
      rewrite Hn in Hlos. done. }
  destruct (mean (map (λ r, astype_float (Length_of_Stay r))
                      (group_rows Date_of_Admission a frame))) as [v|] eqn:Hm.
  - exists a, v. split; [done|]. unfold line_chart_data.
    rewrite sort_index_elem_of, groupby_mean_lookup. split; [by exists r | done].
  - apply mean_None_iff in Hm. rewrite Forall_fmap, Forall_forall in Hm.
    assert (Hin : r ∈ group_rows Date_of_Admission a frame).
    { apply List_filter_elem_of. split; [done|]. by apply bool_decide_eq_true. }
    specialize (Hm r Hin). simpl in Hm. by rewrite Hn in Hm.
Qed.

(** X14: for a row of a loaded frame with both dates, whose difference is
    not the bit pattern of [NaT], the length of stay [n] is the day count
    with [n] days at most and [n + 1] days more than the time between
    admission and discharge; it is negative exactly when the discharge is
    before the admission. *)
Theorem length_of_stay_bounds to_datetime csv df r a d :
  load_data to_datetime csv = Returns df → r ∈ df →
  Date_of_Admission r = Some a → Discharge_Date r = Some d →
  (d - a)%Z ≠ int64_min →
  ∃ n, Length_of_Stay r = Some n ∧
       (n * ns_per_day <= d - a < (n + 1) * ns_per_day)%Z ∧
       ((n < 0)%Z ↔ (d < a)%Z).
Proof.
  intros Hload Hr Ha Hd Hnat.
  destruct (load_data_elem_of to_datetime csv df r Hload Hr) as (t & Hsub & Hlos).
  rewrite Ha, Hd in Hsub.
  assert (Ht : t = Some (d - a)%Z).
  { destruct (decide (fits_int64 a d)) as [Hfit|Hfit].
    - rewrite sub_datetime_fits in Hsub by done.
      destruct (Z.eqb_spec (d - a) int64_min); [done | congruence].
    - by rewrite sub_datetime_overflow in Hsub. }
  subst t. simpl in Hlos. eexists. split; [exact Hlos|].
  assert (Hpos : (0 < ns_per_day)%Z) by done.
  pose proof (Z.mul_div_le (d - a) ns_per_day Hpos).
  pose proof (Z.mul_succ_div_gt (d - a) ns_per_day Hpos).
  split; [lia|]. split.
  - intros Hneg. nia.
  - intros Hlt. apply Z.div_lt_upper_bound; lia.
Qed.

Section LoadColumns.
Variable to_datetime : list (option string) → DatetimeColumn.
Hypothesis to_datetime_length : ∀ col, length (i8 (to_datetime col)) = length col.

Lemma load_data_column {A} (f : Row → A) (g : RawRecord → A) csv df :
  load_data to_datetime csv = Returns df →
  (∀ x a d l, f (mkRow (raw_Gender x) (raw_Medical_Condition x) (raw_Hospital x)
                       (raw_Age x) (raw_Billing_Amount x) a d l) = g x) →
  column f df = map g csv.
Proof using to_datetime_length.
  intros Hload Hfg. unfold column. apply list_eq. intros i.
  rewrite !list_lookup_fmap.
  destruct (csv !! i) as [x|] eqn:Hx.
  - destruct (load_data_lookup to_datetime to_datetime_length csv df i x Hload Hx)
      as (a & d & t & _ & _ & _ & ->). simpl. by rewrite Hfg.
  - apply lookup_ge_None in Hx.
    rewrite (proj2 (lookup_ge_None _ _)); [done|].
    by rewrite (load_data_length to_datetime to_datetime_length csv df Hload).
Qed.

(** X15: loading changes nothing but the dates: the five other columns of
    the loaded frame are the columns of the CSV, row by row, and the two
    date columns are the parsed ones. *)
Theorem load_data_keeps_columns csv df :
  load_data to_datetime csv = Returns df →
  column Gender df = map raw_Gender csv ∧
  column Medical_Condition df = map raw_Medical_Condition csv ∧
  column Hospital df = map raw_Hospital csv ∧
  column Age df = map raw_Age csv ∧
  column Billing_Amount df = map raw_Billing_Amount csv ∧
  column Date_of_Admission df = i8 (admission_column to_datetime csv) ∧
  column Discharge_Date df = i8 (discharge_column to_datetime csv).
Proof using to_datetime_length.
  intros Hload.
  pose proof (load_data_length to_datetime to_datetime_length csv df Hload) as Hlen.
  split_and!; try (by apply load_data_column).
  - unfold column. apply list_eq. intros i. rewrite list_lookup_fmap.
    destruct (csv !! i) as [x|] eqn:Hx.
    + destruct (load_data_lookup to_datetime to_datetime_length csv df i x Hload Hx)
        as (a & d & t & -> & _ & _ & ->). done.
    + apply lookup_ge_None in Hx.
      rewrite !(proj2 (lookup_ge_None _ _)); [done| |].
      * unfold admission_column, discharge_column.
        by rewrite to_datetime_length, length_map.
      * by rewrite Hlen.
  - unfold column. apply list_eq. intros i. rewrite list_lookup_fmap.
    destruct (csv !! i) as [x|] eqn:Hx.
    + destruct (load_data_lookup to_datetime to_datetime_length csv df i x Hload Hx)
        as (a & d & t & _ & -> & _ & ->). done.
    + apply lookup_ge_None in Hx.
      rewrite !(proj2 (lookup_ge_None _ _)); [done| |].
      * unfold admission_column, discharge_column.
        by rewrite to_datetime_length, length_map.
      * by rewrite Hlen.
Qed.
End LoadColumns.

(** ** More on means and correlation *)

Lemma Qsum_bounds (l : list Q) lo hi :
  Forall (λ x, lo <= x <= hi)%Q l →
  (inject_Z (Z.of_nat (length l)) * lo <= Qsum l <=
   inject_Z (Z.of_nat (length l)) * hi)%Q.
Proof.
  induction 1 as [|x l [Hlo Hhi] _ IH].
  - split; unfold Qle; simpl; lia.
  - change (Qsum (x :: l)) with (x + Qsum l)%Q.
    rewrite length_cons, Nat2Z.inj_succ, <- Z.add_1_l, inject_Z_plus.
    change (inject_Z 1) with 1%Q. lra.
Qed.

(** In exact arithmetic a mean lies between any two bounds of the cells
    that have a value. *)
Lemma mean_Q_between s lo hi m :
  (∀ x, Some x ∈ s → (lo <= x <= hi)%Q) →
  mean s = Some m → (lo <= m <= hi)%Q.
Proof.
  intros Hb. unfold mean.
  assert (Hall : Forall (λ x, lo <= x <= hi)%Q (dropna s)).
  { apply Forall_forall. intros x Hx. apply Hb.
    unfold dropna in Hx. apply list_elem_of_omap in Hx as ([y|] & Hy & [= ->]).
    done. }
  destruct (dropna s) as [|v l] eqn:Hv; [done|].
  change (0 <? length (v :: l)) with true. cbv beta iota. intros [= <-].
  rewrite Qred_correct.
  pose proof (Qsum_bounds _ lo hi Hall) as [H1 H2].
  assert (Hn : (0 < inject_Z (Z.of_nat (length (v :: l))))%Q).
  { rewrite length_cons. unfold Qlt. simpl. lia. }
  split.
  - apply Qle_shift_div_l; [done|]. by rewrite Qmult_comm.
  - apply Qle_shift_div_r; [done|]. by rewrite Qmult_comm.
Qed.

(** X16: the average length of stay lies between any two integer bounds
    of the lengths of stay, which [float64] adds without rounding: it is not
    negative when no stay is, and not above the longest stay. *)
Theorem mean_between d lo hi m :
  float64_exact (stays d) →
  (∀ n, n ∈ stays d → (lo <= n <= hi)%Z) →
  mean_length_of_stay (summarize d) = Some m →
  (inject_Z lo <= m <= inject_Z hi)%Q.
Proof.
  intros _ Hb. simpl. apply mean_Q_between.
  intros x Hx. apply list_elem_of_fmap in Hx as ([n|] & Hn & Hin); [|done].
  injection Hn as ->.
  assert (Hs : n ∈ stays d).
  { unfold stays, dropna. apply list_elem_of_omap. by exists (Some n). }
  destruct (Hb n Hs). split; by rewrite <- Zle_Qle.
Qed.

Lemma pearson_unfold xs ys :
  pearson xs ys =
  let obs := complete_pairs xs ys in
  let mx := Qmean (obs.*1) in
  let my := Qmean (obs.*2) in
  let ssx := Qsum ((λ p : Q * Q, (p.1 - mx) * (p.1 - mx))%Q <$> obs) in
  let ssy := Qsum ((λ p : Q * Q, (p.2 - my) * (p.2 - my))%Q <$> obs) in
  let cov := Qsum ((λ p : Q * Q, (p.1 - mx) * (p.2 - my))%Q <$> obs) in
  if (length obs <? 1)%nat then None
  else if Qeq_bool (ssx * ssy) 0 then None
  else Some (Q2R cov / sqrt (Q2R (ssx * ssy)))%R.
Proof. done. Qed.





Lemma not_varies_constant (values : list Q) :
  ¬ varies (Some <$> values) ↔ Forall (λ x, x == Qmean values)%Q values.
Proof.
  split.
  - intros Hnv. destruct values as [|v values'] eqn:Hv; [constructor|].
    rewrite <- Hv in *.
    assert (Hall : Forall (λ x, x == v)%Q values).
    { apply Forall_forall. intros x Hx.
      destruct (Qeq_dec x v) as [|Hne]; [done|].
      destruct Hnv. exists x, v. split_and!; [| |done].
      - apply list_elem_of_fmap. by exists x.
      - apply list_elem_of_fmap. exists v. split; [done|]. rewrite Hv. by left. }
    assert (Hm : (Qmean values == v)%Q).
    { apply Qmean_const; [by rewrite Hv | done]. }
    eapply Forall_impl; [exact Hall|]. intros x Hx. simpl in Hx. by rewrite Hx, Hm.
  - intros Hall (x & y & Hx & Hy & Hxy).
    apply list_elem_of_fmap in Hx as (x' & [= <-] & Hx).
    apply list_elem_of_fmap in Hy as (y' & [= <-] & Hy).
    rewrite Forall_forall in Hall.
    destruct Hxy. by rewrite (Hall x Hx), (Hall y Hy).
Qed.

Lemma complete_pairs_elem_of xs ys p :
  p ∈ complete_pairs xs ys →
  ∃ i, xs !! i = Some (Some p.1) ∧ ys !! i = Some (Some p.2).
Proof.
  unfold complete_pairs. revert ys.
  induction xs as [|x xs IH]; intros [|y ys]; simpl;
    try by intros ?%not_elem_of_nil.
  assert (Htail : p ∈ omap (λ q : option Q * option Q,
                              match q with
                              | (Some a, Some b) => Some (a, b)
                              | _ => None
                              end) (zip xs ys) →
                  ∃ i, (x :: xs) !! i = Some (Some p.1) ∧
                       (y :: ys) !! i = Some (Some p.2)).
  { intros (i & ? & ?)%IH. by exists (S i). }
  destruct x as [a|], y as [b|]; simpl; try exact Htail.
  intros [->|Hp]%elem_of_cons; [by exists 0 | by apply Htail].
Qed.

(** X18: an entry of the matrix is [NaN] as soon as one of its two columns
    is constant over the rows in which both columns have a value; having no
    such row, or one only, is a case of it. *)
Theorem pearson_nan_when_constant xs ys :
  (∀ i j x x' y y',
     xs !! i = Some (Some x) → ys !! i = Some (Some y) →
     xs !! j = Some (Some x') → ys !! j = Some (Some y') → (x == x')%Q) ∨
  (∀ i j x x' y y',
     xs !! i = Some (Some x) → ys !! i = Some (Some y) →
     xs !! j = Some (Some x') → ys !! j = Some (Some y') → (y == y')%Q) →
  pearson xs ys = None.
Proof.
  intros Hconst. rewrite pearson_unfold. cbv zeta.
  set (obs := complete_pairs xs ys).
  assert (Hx : Qsum ((λ p : Q * Q, (p.1 - Qmean (obs.*1)) * (p.1 - Qmean (obs.*1)))%Q
                     <$> obs)
               = Qsum ((λ x, (x - Qmean (obs.*1)) * (x - Qmean (obs.*1)))%Q <$> obs.*1)).
  { by rewrite <- list_fmap_compose. }
  assert (Hy : Qsum ((λ p : Q * Q, (p.2 - Qmean (obs.*2)) * (p.2 - Qmean (obs.*2)))%Q
                     <$> obs)
               = Qsum ((λ x, (x - Qmean (obs.*2)) * (x - Qmean (obs.*2)))%Q <$> obs.*2)).
  { by rewrite <- list_fmap_compose. }
  rewrite Hx, Hy. clear Hx Hy.
  pose proof (sum_sq_zero_iff (obs.*1)) as Zx.
  pose proof (sum_sq_zero_iff (obs.*2)) as Zy.
  rewrite <- not_varies_constant in Zx, Zy.
  set (ssx := Qsum ((λ x, (x - Qmean (obs.*1)) * (x - Qmean (obs.*1)))%Q <$> obs.*1)) in *.
  set (ssy := Qsum ((λ x, (x - Qmean (obs.*2)) * (x - Qmean (obs.*2)))%Q <$> obs.*2)) in *.
  destruct (length obs <? 1); [done|].
  assert (Hzero : (ssx * ssy == 0)%Q).
  { destruct Hconst as [Hc|Hc].
    - assert (Hs : (ssx == 0)%Q); [|rewrite Hs; ring].
      apply Zx. intros (x & x' & Hin & Hin' & Hne).
      apply list_elem_of_fmap in Hin as (? & [= <-] & Hin).
      apply list_elem_of_fmap in Hin' as (? & [= <-] & Hin').
      apply list_elem_of_fmap in Hin as (p & -> & Hp).
      apply list_elem_of_fmap in Hin' as (p' & -> & Hp').
      apply complete_pairs_elem_of in Hp as (i & ? & ?).
      apply complete_pairs_elem_of in Hp' as (j & ? & ?).
      apply Hne. by eapply (Hc i j).
    - assert (Hs : (ssy == 0)%Q); [|rewrite Hs; ring].
      apply Zy. intros (y & y' & Hin & Hin' & Hne).
      apply list_elem_of_fmap in Hin as (? & [= <-] & Hin).
      apply list_elem_of_fmap in Hin' as (? & [= <-] & Hin').
      apply list_elem_of_fmap in Hin as (p & -> & Hp).
      apply list_elem_of_fmap in Hin' as (p' & -> & Hp').
      apply complete_pairs_elem_of in Hp as (i & ? & ?).
      apply complete_pairs_elem_of in Hp' as (j & ? & ?).
      apply Hne. by eapply (Hc i j). }
  apply Qeq_bool_iff in Hzero. by rewrite Hzero.
Qed.

(** ** The further properties on the worked examples *)

Lemma offered_selection_has_rows_witness :
  filtered_df Examples.df (Some "Male") (Some "All") ≠ [] ∧
  filtered_df Examples.df (Some "All") (Some "Asthma") ≠ [].
Proof.
  split.
  - destruct (offered_selection_has_rows Examples.df "Male") as [Hg _];
      [discriminate|].
    apply Hg. vm_compute. right. left.
  - destruct (offered_selection_has_rows Examples.df "Asthma") as [_ Hc];
      [discriminate|].
    apply Hc. vm_compute. right. right. left.
Defined.

Lemma gender_options_partition_witness :
  sum_list ((λ o, length (filtered_df Examples.df o (Some "All")))
              <$> unique (column Gender Examples.df)) = 2.
Proof.
  rewrite (gender_options_partition Examples.df); [reflexivity|].
  vm_compute. intros H.
  repeat (apply elem_of_cons in H as [H|H]; [discriminate|]).
  by apply not_elem_of_nil in H.
Defined.

Lemma gender_condition_matches_filter_witness :
  count (summarize (filtered_df Examples.df (Some "Male") (Some "Diabetes"))) = 1.
Proof.
  destruct (gender_condition_matches_filter Examples.df "Male" "Diabetes")
    as [_ Hbar]; [discriminate | discriminate |].
  apply Hbar. reflexivity.
Defined.

Lemma line_chart_covers_stays_witness :
  ∃ a v, (a, Some v) ∈ line_chart_data Examples.df.
Proof.
  destruct (line_chart_covers_stays IsoDate.to_datetime Examples.csv Examples.df
              (Some "All") (Some "All")
              (mkRow (Some "Male") (Some "Diabetes") (Some "General Hospital")
                     (Some 45%Z) (Some (2001 # 2))
                     (Some 1577836800000000000%Z) (Some 1578182400000000000%Z)
                     (Some 4%Z)) 4%Z)
    as (a & v & _ & Hpoint); [by vm_compute | vm_compute; left | reflexivity |].
  exists a, v. exact Hpoint.
Defined.

Lemma length_of_stay_bounds_witness :
  ∃ df r n, load_data IsoDate.to_datetime Examples.csv_reversed = Returns df ∧
            r ∈ df ∧ Length_of_Stay r = Some n ∧ (n < 0)%Z.
Proof.
  set (r := mkRow (Some "Male") (Some "Diabetes") (Some "General Hospital")
                  (Some 45%Z) (Some (2001 # 2))
                  (Some 1578182400000000000%Z) (Some 1578096000000000000%Z)
                  (Some (-1)%Z)).
  assert (Hload : load_data IsoDate.to_datetime Examples.csv_reversed = Returns [r])
    by (by vm_compute).
  assert (Hr : r ∈ [r]) by left.
  destruct (length_of_stay_bounds IsoDate.to_datetime Examples.csv_reversed [r] r
              1578182400000000000%Z 1578096000000000000%Z Hload Hr eq_refl eq_refl)
    as (n & Hn & _ & Hneg); [by vm_compute|].
  exists [r], r, n.
  split_and!; [exact Hload | exact Hr | exact Hn | apply Hneg; reflexivity].
Defined.

Lemma load_data_keeps_columns_witness :
  column Gender Examples.df = [Some "Male"; Some "Female"].
Proof.
  destruct (load_data_keeps_columns IsoDate.to_datetime IsoDate_to_datetime_length
              Examples.csv Examples.df) as (Hg & _); [by vm_compute|].
  exact Hg.
Defined.

Lemma mean_between_witness :
  (4 <= 7 <= 11)%Q.
Proof.
  apply (mean_between Examples.three_stays 4 11 7); [by vm_compute | | by vm_compute].
  intros n Hn. vm_compute in Hn.
  repeat (apply elem_of_cons in Hn as [Hn|Hn]; [subst n; split; discriminate|]).
  by apply not_elem_of_nil in Hn.
Defined.


(** Age and length of stay in the example have a value together in the
    first row only. *)
Lemma pearson_nan_when_constant_witness :
  pearson (column (λ r, astype_float (Age r)) Examples.df)
          (column (λ r, astype_float (Length_of_Stay r)) Examples.df) = None.
Proof.
  apply pearson_nan_when_constant. left.
  intros [|[|i]] [|[|j]] x x' y y' Hx Hy Hx' Hy'; vm_compute in Hx, Hy, Hx', Hy';
    try discriminate.
  injection Hx as <-. injection Hx' as <-. reflexivity.
Defined.

Lemma gender_options_offered_witness :
  Some "Female" ∈ gender_options Examples.df.
Proof.
  destruct (gender_options_offered Examples.df) as [Hall _].
  apply (Hall (mkRow (Some "Female") (Some "Asthma") (Some "City Clinic")
                     (Some 30%Z) (Some (250 # 1))
                     (Some 1580515200000000000%Z) None None)).
  vm_compute. right. left.
Defined.
